(** * Depreciation schedule engine of DepreciationCalculator.jsx

    A shallow embedding of the computational closure [scheduleData]
    (src/components/DepreciationCalculator.jsx, lines 4-29 and 58-150)
    together with the properties of its schedule.

    Numbers.  JavaScript numbers are modelled as exact rationals [Q]; every
    equation between amounts is stated with the rational equality [==].
    The source computes in IEEE doubles, which round every product, quotient,
    sum and difference: an identity between amounts proved here is an
    identity of exact arithmetic.  Module [Double] transcribes the allocation
    and the Section 179 loop with binary64 floats, to show where rounding
    breaks such an identity.
    Objects.  [categorySchedules] and [yearData.depreciation] are JavaScript
    objects used as maps from a category id to a value: they are finite maps
    [gmap string _].  Reading a property of a missing entry
    ([categorySchedules[catId].basis]) raises a TypeError in the source; the
    embedding returns [None] there, so the closure is a function into
    [option] and its totality is a theorem, not an assumption. *)

From Stdlib Require Import QArith Qminmax Lqa ZArith.
From Stdlib Require Import Floats.
From stdpp Require Import gmap strings list fin_maps.

Open Scope Q_scope.

(** ** JavaScript primitives used by the closure *)

Module Js.

(** [a > b] on numbers. *)
Definition gt (a b : Q) : bool := negb (Qle_bool a b).

(** [a < b] on numbers. *)
Definition lt (a b : Q) : bool := negb (Qle_bool b a).

(** [Math.min(a, b)]. *)
Definition Math_min (a b : Q) : Q := Qmin a b.

(** [x || 0] where [x] is a possibly absent numeric property: [undefined]
    and [0] both give [0]. *)
Definition or0 (x : option Q) : Q :=
  match x with
  | Some v => if Qeq_bool v 0 then 0 else v
  | None => 0
  end.

(** [Array.prototype.forEach] over a list, threading the state that the
    callback mutates; a callback that throws aborts the loop. *)
Fixpoint forEach {A S : Type} (f : S -> A -> option S) (l : list A) (s : S)
  : option S :=
  match l with
  | [] => Some s
  | x :: l' =>
      match f s x with
      | Some s' => forEach f l' s'
      | None => None
      end
  end.

End Js.

(** ** Rate tables (lines 4-20) *)

(** [Array(n).fill(null).map((_, i) => i === 0 ? first : i === n-1 ? last : mid)] *)
Definition stub_table (n : nat) (first mid last : Q) : list Q :=
  map (fun i : nat =>
         if (i =? 0)%nat then first
         else if (i =? n - 1)%nat then last
         else mid)
      (seq 0 n).

Definition MACRS_RATES : list (Q * list Q) :=
  [ (5, [0.2; 0.32; 0.192; 0.1152; 0.1152; 0.0576]);
    (7, [0.1429; 0.2449; 0.1749; 0.1249; 0.0893; 0.0892; 0.0893; 0.0446]);
    (15, [0.05; 0.095; 0.0855; 0.077; 0.0693; 0.0623; 0.059; 0.059; 0.0591;
          0.059; 0.0591; 0.059; 0.0591; 0.059; 0.0591; 0.0295]);
    (27.5, stub_table 28 0.03636 0.03636 0.01515);
    (39, stub_table 40 0.02461 0.02564 0.00107) ].

(** [MACRS_RATES[life]]: the table of a recovery life, [None] for
    [undefined]. *)
Fixpoint macrs_lookup (tbl : list (Q * list Q)) (life : Q) : option (list Q) :=
  match tbl with
  | [] => None
  | (k, rates) :: tbl' =>
      if Qeq_bool k life then Some rates else macrs_lookup tbl' life
  end.

Definition BONUS_RATES : gmap Z Q :=
  list_to_map
    [ (2022%Z, 1.00); (2023%Z, 0.80); (2024%Z, 0.60);
      (2025%Z, 0.40); (2026%Z, 0.20); (2027%Z, 0.00) ].

(** ** Asset categories (lines 22-29) *)

Record AssetCategory := mkCategory {
  cat_id : string;
  cat_life : Q
}.

Definition ASSET_CATEGORIES : list AssetCategory :=
  [ mkCategory "land" 0;
    mkCategory "5year" 5;
    mkCategory "7year" 7;
    mkCategory "15year" 15;
    mkCategory "residential" 27.5;
    mkCategory "commercial" 39 ].

(** ** Component state read by the closure (lines 40-59) *)

Record Inputs := mkInputs {
  (** [allocations[id]]: the state object always carries the six category
      keys, so a read is a total lookup. *)
  allocations : string -> Q;
  totalCost : Q;
  purchaseYear : Z;
  useBonus : bool;
  useSection179 : bool;
  section179Amount : Q;
  depreciationMethod : string
}.

(** [const bonusRate = BONUS_RATES[purchaseYear] || 0] (line 59). *)
Definition bonusRate (purchaseYear : Z) : Q :=
  Js.or0 (BONUS_RATES !! purchaseYear).

(** ** Working data of one computation *)

Record CategorySchedule := mkSchedule {
  basis : Q;
  yearlyDepreciation : list Q;
  cumulative : Q;
  section179 : option Q;          (* absent until the Section 179 step sets it *)
  bonusDepreciation : option Q    (* absent until the bonus step sets it *)
}.

Record YearData := mkYear {
  year : Z;
  depreciation : gmap string Q;
  totalDepreciation : Q
}.

Record Result := mkResult {
  schedule : list YearData;
  categorySchedules : gmap string CategorySchedule
}.

(** ** The closure [scheduleData] (lines 68-150) *)

(** Line 75: [(allocations[cat.id] / 100) * totalCost]. *)
Definition initialBasis (inp : Inputs) (catId : string) : Q :=
  (allocations inp catId / 100) * totalCost inp.

(** Lines 74-78: the entry a category starts with. *)
Definition initSchedule (b : Q) : CategorySchedule := mkSchedule b [] 0 None None.

(** Lines 73-79: one entry per category. *)
Definition allocateBasis (inp : Inputs) : gmap string CategorySchedule :=
  fold_left
    (fun cs cat =>
       <[cat_id cat :=
           initSchedule (initialBasis inp (cat_id cat))]> cs)
    ASSET_CATEGORIES ∅.

Definition eligible179 : list string := ["5year"; "7year"; "15year"].
Definition eligibleBonus : list string := ["5year"; "7year"; "15year"].

(** Lines 85-93: body of the Section 179 loop; the state is the running
    [remaining179] and the schedules. *)
Definition section179Step (st : Q * gmap string CategorySchedule)
    (catId : string) : option (Q * gmap string CategorySchedule) :=
  let '(remaining179, cs) := st in
  if Js.gt remaining179 0 then
    match cs !! catId with
    | None => None
    | Some c =>
        let catBasis := basis c in
        let deduction := Js.Math_min remaining179 catBasis in
        Some (remaining179 - deduction,
              <[catId := mkSchedule (basis c - deduction)
                                    (yearlyDepreciation c) (cumulative c)
                                    (Some deduction) (bonusDepreciation c)]> cs)
    end
  else Some st.

(** Lines 82-93. *)
Definition applySection179 (inp : Inputs) (cs : gmap string CategorySchedule)
  : option (Q * gmap string CategorySchedule) :=
  let remaining179 := if useSection179 inp then section179Amount inp else 0 in
  Js.forEach section179Step eligible179 (remaining179, cs).

(** Lines 97-103: body of the bonus loop. *)
Definition bonusStep (inp : Inputs) (cs : gmap string CategorySchedule)
    (catId : string) : option (gmap string CategorySchedule) :=
  if useBonus inp && Js.gt (bonusRate (purchaseYear inp)) 0 then
    match cs !! catId with
    | None => None
    | Some c =>
        let bonus := basis c * bonusRate (purchaseYear inp) in
        Some (<[catId := mkSchedule (basis c - bonus)
                                    (yearlyDepreciation c) (cumulative c)
                                    (section179 c) (Some bonus)]> cs)
    end
  else Some cs.

(** Lines 96-103. *)
Definition applyBonus (inp : Inputs) (cs : gmap string CategorySchedule)
  : option (gmap string CategorySchedule) :=
  Js.forEach (bonusStep inp) eligibleBonus cs.

(** Lines 120-133: the periodic amount of one category in one year. *)
Definition periodicDepreciation (method : string) (life basis : Q) (yr : nat)
  : Q :=
  if String.eqb method "macrs" then
    match macrs_lookup MACRS_RATES life with
    | Some rates =>
        if (yr <? length rates)%nat then basis * nth yr rates 0 else 0
    | None => 0
    end
  else
    if Js.lt (inject_Z (Z.of_nat yr)) life then basis / life else 0.

(** Lines 120-138: the periodic amount, plus the first-year special
    deductions when [year === 0]. *)
Definition yearDepreciationOf (method : string) (life : Q)
    (c : CategorySchedule) (yr : nat) : Q :=
  if (yr =? 0)%nat
  then periodicDepreciation method life (basis c) yr
       + (Js.or0 (section179 c) + Js.or0 (bonusDepreciation c))
  else periodicDepreciation method life (basis c) yr.

(** Lines 113-144: body of the per-category loop of one year. *)
Definition categoryStep (inp : Inputs) (yr : nat)
    (st : YearData * gmap string CategorySchedule) (cat : AssetCategory)
  : option (YearData * gmap string CategorySchedule) :=
  let '(yearData, cs) := st in
  if Qeq_bool (cat_life cat) 0 then
    Some (mkYear (year yearData)
                 (<[cat_id cat := 0]> (depreciation yearData))
                 (totalDepreciation yearData),
          cs)
  else
    match cs !! cat_id cat with
    | None => None
    | Some catData =>
        let yearDepreciation :=
          yearDepreciationOf (depreciationMethod inp) (cat_life cat) catData yr in
        Some (mkYear (year yearData)
                     (<[cat_id cat := yearDepreciation]> (depreciation yearData))
                     (totalDepreciation yearData + yearDepreciation),
              <[cat_id cat :=
                  mkSchedule (basis catData)
                             (yearlyDepreciation catData ++ [yearDepreciation])
                             (cumulative catData + yearDepreciation)
                             (section179 catData)
                             (bonusDepreciation catData)]> cs)
    end.

(** Lines 106-147: body of the loop over the years. *)
Definition yearStep (inp : Inputs)
    (st : list YearData * gmap string CategorySchedule) (yr : nat)
  : option (list YearData * gmap string CategorySchedule) :=
  let '(sched, cs) := st in
  let yearData := mkYear (purchaseYear inp + Z.of_nat yr)%Z ∅ 0 in
  match Js.forEach (categoryStep inp yr) ASSET_CATEGORIES (yearData, cs) with
  | None => None
  | Some (yearData', cs') => Some (sched ++ [yearData'], cs')
  end.

Definition years : nat := 40.

Definition scheduleData (inp : Inputs) : option Result :=
  let cs0 := allocateBasis inp in
  match applySection179 inp cs0 with
  | None => None
  | Some (_, cs1) =>
      match applyBonus inp cs1 with
      | None => None
      | Some cs2 =>
          match Js.forEach (yearStep inp) (seq 0 years) ([], cs2) with
          | None => None
          | Some (sched, cs3) => Some (mkResult sched cs3)
          end
      end
  end.

(** ** Auxiliary definitions used to state the properties *)

(** Sum of a list of amounts. *)
Definition sumQ (l : list Q) : Q := fold_right Qplus 0 l.

(** The entry that lines 86-92 leave for a category whose entry was [c],
    when [remaining179] is still to be deducted. *)
Definition after179 (remaining179 : Q) (c : CategorySchedule) : CategorySchedule :=
  if Js.gt remaining179 0 then
    mkSchedule (basis c - Js.Math_min remaining179 (basis c))
               (yearlyDepreciation c) (cumulative c)
               (Some (Js.Math_min remaining179 (basis c)))
               (bonusDepreciation c)
  else c.

(** The value of [remaining179] after lines 86-92 ran on entry [c]. *)
Definition remainingAfter (remaining179 : Q) (c : CategorySchedule) : Q :=
  if Js.gt remaining179 0
  then remaining179 - Js.Math_min remaining179 (basis c)
  else remaining179.

(** The guard of line 98. *)
Definition bonusApplies (inp : Inputs) : bool :=
  useBonus inp && Js.gt (bonusRate (purchaseYear inp)) 0.

(** The entry that lines 98-102 leave for a category whose entry was [c]. *)
Definition afterBonus (inp : Inputs) (c : CategorySchedule) : CategorySchedule :=
  if bonusApplies inp then
    mkSchedule (basis c - basis c * bonusRate (purchaseYear inp))
               (yearlyDepreciation c) (cumulative c)
               (section179 c)
               (Some (basis c * bonusRate (purchaseYear inp)))
  else c.

(** A category entry of [cs] records Section 179 amount [d] (read as the
    summary does, [section179 || 0]) and basis [b]. *)
Definition records179 (cs : gmap string CategorySchedule) (k : string)
    (d b : Q) : Prop :=
  exists c, cs !! k = Some c /\ Js.or0 (section179 c) == d /\ basis c == b.

(** Lines 119-138 for one category, read against the schedules [cs] at the
    start of the year: the amount the row reports for it. *)
Definition amountOf (inp : Inputs) (cs : gmap string CategorySchedule)
    (yr : nat) (cat : AssetCategory) : Q :=
  if Qeq_bool (cat_life cat) 0 then 0
  else match cs !! cat_id cat with
       | Some c => yearDepreciationOf (depreciationMethod inp) (cat_life cat) c yr
       | None => 0
       end.

(** Line 115 / line 142: the row's [depreciation] object after one category. *)
Definition addDep (inp : Inputs) (cs : gmap string CategorySchedule) (yr : nat)
    (m : gmap string Q) (cat : AssetCategory) : gmap string Q :=
  <[cat_id cat := amountOf inp cs yr cat]> m.

(** Line 143: the row's [totalDepreciation] after one category (land returns
    before the addition). *)
Definition addTotal (inp : Inputs) (cs : gmap string CategorySchedule) (yr : nat)
    (t : Q) (cat : AssetCategory) : Q :=
  if Qeq_bool (cat_life cat) 0 then t else t + amountOf inp cs yr cat.

(** The row of year index [yr], from the schedules [cs] the year starts with. *)
Definition rowOf (inp : Inputs) (cs : gmap string CategorySchedule) (yr : nat)
  : YearData :=
  mkYear (purchaseYear inp + Z.of_nat yr)%Z
         (fold_left (addDep inp cs yr) ASSET_CATEGORIES ∅)
         (fold_left (addTotal inp cs yr) ASSET_CATEGORIES 0).

(** Lines 140-141 on one entry: the year's amount is pushed and accumulated. *)
Definition pushYear (inp : Inputs) (yr : nat) (cat : AssetCategory)
    (c : CategorySchedule) : CategorySchedule :=
  if Qeq_bool (cat_life cat) 0 then c
  else
    let v := yearDepreciationOf (depreciationMethod inp) (cat_life cat) c yr in
    mkSchedule (basis c) (yearlyDepreciation c ++ [v]) (cumulative c + v)
               (section179 c) (bonusDepreciation c).

(** An entry after the first [n] years. *)
Definition pushYears (inp : Inputs) (cat : AssetCategory) (n : nat)
    (c : CategorySchedule) : CategorySchedule :=
  if Qeq_bool (cat_life cat) 0 then c
  else
    let vs := map (yearDepreciationOf (depreciationMethod inp) (cat_life cat) c)
                  (seq 0 n) in
    mkSchedule (basis c) (yearlyDepreciation c ++ vs)
               (fold_left Qplus vs (cumulative c))
               (section179 c) (bonusDepreciation c).

(** Every category has an entry. *)
Definition covers (cs : gmap string CategorySchedule) : Prop :=
  forall cat, cat ∈ ASSET_CATEGORIES -> is_Some (cs !! cat_id cat).

(** [cs] is what [n] years of the loop make of [cs2]. *)
Definition tracks (inp : Inputs) (cs2 : gmap string CategorySchedule) (n : nat)
    (cs : gmap string CategorySchedule) : Prop :=
  (forall cat, cat ∈ ASSET_CATEGORIES ->
     cs !! cat_id cat = pushYears inp cat n <$> cs2 !! cat_id cat) /\
  (forall k, k ∉ map cat_id ASSET_CATEGORIES -> cs !! k = cs2 !! k).

(** Line 82: the amount to deduct when the Section 179 loop starts. *)
Definition remaining0 (inp : Inputs) : Q :=
  if useSection179 inp then section179Amount inp else 0.

(** The value of [remaining179] when the loop over [ks] reaches category [k],
    started with [r] (the final value when [k] is not in [ks]). *)
Fixpoint remainingBeforeIn (inp : Inputs) (ks : list string) (r : Q)
    (k : string) : Q :=
  match ks with
  | [] => r
  | k' :: ks' =>
      if String.eqb k' k then r
      else remainingBeforeIn inp ks'
             (remainingAfter r (initSchedule (initialBasis inp k'))) k
  end.

Definition remainingBefore (inp : Inputs) (k : string) : Q :=
  remainingBeforeIn inp eligible179 (remaining0 inp) k.

(** The value of [remaining179] when the loop ends. *)
Definition remainingFinal (inp : Inputs) : Q := remainingBefore inp "".

Definition isEligible (k : string) : bool := bool_decide (k ∈ eligible179).

(** The entry of category [k] after the Section 179 loop. *)
Definition entry179 (inp : Inputs) (k : string) : CategorySchedule :=
  if isEligible k
  then after179 (remainingBefore inp k) (initSchedule (initialBasis inp k))
  else initSchedule (initialBasis inp k).

(** The entry of category [k] after the bonus loop. *)
Definition entryBonus (inp : Inputs) (k : string) : CategorySchedule :=
  if isEligible k then afterBonus inp (entry179 inp k) else entry179 inp k.

(** The amount the row of year [yr] reports for category [cat]: line 115 for
    land, lines 119-138 on the entry left by the two deduction loops
    otherwise. *)
Definition reported (inp : Inputs) (cat : AssetCategory) (yr : nat) : Q :=
  if Qeq_bool (cat_life cat) 0 then 0
  else yearDepreciationOf (depreciationMethod inp) (cat_life cat)
                          (entryBonus inp (cat_id cat)) yr.

(** ** Sample inputs *)

(** The component's initial [allocations] state (lines 43-50). *)
Definition defaultAllocations (k : string) : Q :=
  default 0
    ((list_to_map
        [("land", 15); ("5year", 8); ("7year", 5); ("15year", 12);
         ("residential", 0); ("commercial", 60)] : gmap string Q) !! k).

(** The component's initial state (lines 41-55), placed in service in 2024. *)
Definition defaultInputs : Inputs :=
  mkInputs defaultAllocations 1000000 2024 true false 0 "macrs".

(** The initial state with Section 179 elected for [amount]. *)
Definition electing179 (amount : Q) : Inputs :=
  mkInputs defaultAllocations 1000000 2024 true true amount "macrs".

(** A residential building of cost 275 depreciated straight-line, nothing
    elected: the whole cost is allocated to the 27.5-year category. *)
Definition residentialStraight : Inputs :=
  mkInputs (fun k => if String.eqb k "residential" then 100 else 0)
           275 2024 false false 0 "straight".




(** The inputs [inp] with [depreciationMethod] set to [m]. *)
Definition withMethod (inp : Inputs) (m : string) : Inputs :=
  mkInputs (allocations inp) (totalCost inp) (purchaseYear inp) (useBonus inp)
           (useSection179 inp) (section179Amount inp) m.

(** ** The allocation state and the summary figures (lines 43-66, 152-159, 612) *)

(** [Math.max(a, b)]. *)
Definition Math_max (a b : Q) : Q := Qmax a b.

(** An object with numeric properties, as its own properties in insertion
    order: [o[k]], with [None] for [undefined]. *)
Fixpoint getProp (k : string) (o : list (string * Q)) : option Q :=
  match o with
  | [] => None
  | (k', v) :: o' => if String.eqb k' k then Some v else getProp k o'
  end.

(** [{ ...o, [k]: v }]: an existing property keeps its place and takes the
    new value, a new one is added last. *)
Fixpoint setProp (k : string) (v : Q) (o : list (string * Q))
  : list (string * Q) :=
  match o with
  | [] => [(k, v)]
  | (k', v') :: o' =>
      if String.eqb k' k then (k', v) :: o' else (k', v') :: setProp k v o'
  end.

(** The initial [allocations] state (lines 43-50). *)
Definition initialAllocations : list (string * Q) :=
  [("land", 15); ("5year", 8); ("7year", 5); ("15year", 12);
   ("residential", 0); ("commercial", 60)].

(** Lines 61-64.  [parsed] is the value of [parseFloat(value)], [None] when
    it is [NaN]. *)
Definition updateAllocation (id : string) (parsed : option Q)
    (prev : list (string * Q)) : list (string * Q) :=
  let newValue := Math_max 0 (Js.Math_min 100 (Js.or0 parsed)) in
  setProp id newValue prev.

(** Line 66: [Object.values(allocations).reduce((sum, val) => sum + val, 0)]. *)
Definition totalAllocation (allocations : list (string * Q)) : Q :=
  fold_left (fun sum val => sum + val) (map snd allocations) 0.

(** The closure reads its [allocations] from the state object [o]. *)
Definition readsFrom (inp : Inputs) (o : list (string * Q)) : Prop :=
  forall cat, cat ∈ ASSET_CATEGORIES ->
    getProp (cat_id cat) o = Some (allocations inp (cat_id cat)).

Record SummaryStats := mkSummary {
  firstYearTotal : Q;
  fiveYearTotal : Q;
  tenYearTotal : Q;
  totalDepreciable : Q
}.

(** [schedule.slice(0, n).reduce((sum, y) => sum + y.totalDepreciation, 0)]
    (lines 154, 155 and 612). *)
Definition sumTotals (n : nat) (sched : list YearData) : Q :=
  fold_left (fun sum y => sum + totalDepreciation y) (take n sched) 0.

(** Lines 152-159. *)
Definition summaryStats (inp : Inputs) (res : Result) : SummaryStats :=
  mkSummary
    (Js.or0 (totalDepreciation <$> schedule res !! 0%nat))
    (sumTotals 5 (schedule res))
    (sumTotals 10 (schedule res))
    (totalCost inp - (allocations inp "land" / 100) * totalCost inp).

(** Line 612: the running total shown in the table row [index]. *)
Definition cumulativeAt (res : Result) (index : nat) : Q :=
  sumTotals (index + 1) (schedule res).

(** The inputs [inp] with [section179Amount] set to [a]. *)
Definition withSection179Amount (inp : Inputs) (a : Q) : Inputs :=
  mkInputs (allocations inp) (totalCost inp) (purchaseYear inp) (useBonus inp)
           (useSection179 inp) a (depreciationMethod inp).

(** The inputs [inp] with [useBonus] set to [b]. *)
Definition withBonus (inp : Inputs) (b : bool) : Inputs :=
  mkInputs (allocations inp) (totalCost inp) (purchaseYear inp) b
           (useSection179 inp) (section179Amount inp) (depreciationMethod inp).

(** The share of a remaining basis that the periodic amounts of the 40 years
    add up to, for a method and a recovery life. *)
Definition recoveryFraction (method : string) (life : Q) : Q :=
  sumQ (map (periodicDepreciation method life 1) (seq 0 years)).

(** The state object after a sequence of calls of [updateAllocation]. *)
Definition afterUpdates (steps : list (string * option Q))
    (o : list (string * Q)) : list (string * Q) :=
  fold_left (fun o step => updateAllocation (fst step) (snd step) o) steps o.

(** No amount of the result is negative. *)
Definition allNonneg (res : Result) : Prop :=
  (forall k c, categorySchedules res !! k = Some c ->
     0 <= basis c /\
     0 <= Js.or0 (section179 c) /\
     0 <= Js.or0 (bonusDepreciation c) /\
     Forall (fun v => 0 <= v) (yearlyDepreciation c) /\
     0 <= cumulative c) /\
  (forall row, row ∈ schedule res ->
     0 <= totalDepreciation row /\
     forall k v, depreciation row !! k = Some v -> 0 <= v).

(** ** Lines 66, 75 and 82-93 in IEEE double arithmetic *)

Module Double.

(** [a > b]; false when either is [NaN]. *)
Definition gt (a b : float) : bool := PrimFloat.ltb b a.

(** [Math.min(a, b)]: [NaN] if either is, and [-0] below [+0]. *)
Definition Math_min (a b : float) : float :=
  if PrimFloat.is_nan a then a
  else if PrimFloat.is_nan b then b
  else if PrimFloat.ltb b a then b
  else if PrimFloat.ltb a b then a
  else match PrimFloat.classify b with
       | NZero => b
       | _ => a
       end.

(** [x || 0] on a possibly absent number: [undefined], [NaN] and both zeros
    give [0]. *)
Definition or0 (x : option float) : float :=
  match x with
  | Some v =>
      if orb (PrimFloat.is_nan v) (PrimFloat.eqb v 0%float) then 0%float else v
  | None => 0%float
  end.

(** [values.reduce((sum, val) => sum + val, 0)] (line 66). *)
Definition sum (values : list float) : float :=
  fold_left PrimFloat.add values 0%float.

(** Line 75: [(allocations[cat.id] / 100) * totalCost]. *)
Definition initialBasis (allocation totalCost : float) : float :=
  PrimFloat.mul (PrimFloat.div allocation 100%float) totalCost.

(** Lines 86-92 on one category: from [remaining179] and the category's
    basis to the new [remaining179], the new basis and the [section179]
    property ([None] when the guard fails and nothing is recorded). *)
Definition section179Step (remaining179 catBasis : float)
  : float * (float * option float) :=
  if gt remaining179 0%float then
    let deduction := Math_min remaining179 catBasis in
    (PrimFloat.sub remaining179 deduction,
     (PrimFloat.sub catBasis deduction, Some deduction))
  else (remaining179, (catBasis, None)).

(** Lines 85-93 over the bases of the eligible categories, in order: the
    basis and the [section179] property each is left with. *)
Fixpoint section179Loop (remaining179 : float) (bases : list float)
  : list (float * option float) :=
  match bases with
  | [] => []
  | catBasis :: bases' =>
      let '(remaining179', entry) := section179Step remaining179 catBasis in
      entry :: section179Loop remaining179' bases'
  end.

(** Allocations 20/10/7/8/0/55 percent, which add up to 100, of a cost of
    999999.99. *)
#[warnings="-inexact-float"]
Definition sampleCost : float := 999999.99%float.
Definition sampleAllocations : list float :=
  [20%float; 10%float; 7%float; 8%float; 0%float; 55%float].

(** A request of 2022244.76 against 25.5, 56.5 and 79.8 percent of a cost of
    1747609.68 on 5year, 7year and 15year. *)
#[warnings="-inexact-float"]
Definition sampleRequest : float := 2022244.76%float.
#[warnings="-inexact-float"]
Definition sampleEligibleBases : list float :=
  [initialBasis 25.5%float 1747609.68%float;
   initialBasis 56.5%float 1747609.68%float;
   initialBasis 79.8%float 1747609.68%float].

End Double.

(** The initial allocations of a negative total cost, with Section 179
    elected for an amount of 0. *)
Definition negativeCostElecting : Inputs :=
  mkInputs defaultAllocations (-100) 2024 false true 0 "macrs".

(** Membership in a list that is written out. *)
Ltac in_list :=
  repeat first [apply list_elem_of_here | apply list_elem_of_further].

(** * Properties *)

(** ** Facts about the primitives *)

Lemma gt_true (a b : Q) : Js.gt a b = true <-> b < a.
Proof.
  unfold Js.gt. rewrite negb_true_iff, <- not_true_iff_false, Qle_bool_iff.
  split; [apply Qnot_le_lt | apply Qlt_not_le].
Qed.

Lemma gt_false (a b : Q) : Js.gt a b = false <-> a <= b.
Proof. unfold Js.gt. rewrite negb_false_iff. apply Qle_bool_iff. Qed.

Lemma lt_true (a b : Q) : Js.lt a b = true <-> a < b.
Proof. apply gt_true. Qed.

Lemma lt_false (a b : Q) : Js.lt a b = false <-> b <= a.
Proof. apply gt_false. Qed.

Lemma or0_Some (v : Q) : Js.or0 (Some v) == v.
Proof.
  unfold Js.or0. destruct (Qeq_bool v 0) eqn:E; [|reflexivity].
  apply Qeq_bool_iff in E. symmetry. exact E.
Qed.

Lemma or0_None : Js.or0 None = 0.
Proof. reflexivity. Qed.

Lemma forEach_cons {A S : Type} (f : S -> A -> option S) x l s :
  Js.forEach f (x :: l) s =
  match f s x with Some s' => Js.forEach f l s' | None => None end.
Proof. reflexivity. Qed.

Lemma forEach_app {A S : Type} (f : S -> A -> option S) l1 l2 s :
  Js.forEach f (l1 ++ l2) s =
  match Js.forEach f l1 s with
  | Some s' => Js.forEach f l2 s'
  | None => None
  end.
Proof.
  revert s. induction l1 as [|x l1 IH]; intros s; [reflexivity|].
  cbn [app Js.forEach]. destruct (f s x); [apply IH | reflexivity].
Qed.

Lemma forEach_ext {A S : Type} (f g : S -> A -> option S) l s :
  (forall s x, f s x = g s x) -> Js.forEach f l s = Js.forEach g l s.
Proof.
  intros E. revert s. induction l as [|x l IH]; intros s; [reflexivity|].
  cbn [Js.forEach]. rewrite E. destruct (g s x); [apply IH | reflexivity].
Qed.

(** ** Basis allocation *)

Lemma allocateBasis_lookup (inp : Inputs) (cat : AssetCategory) :
  cat ∈ ASSET_CATEGORIES ->
  allocateBasis inp !! cat_id cat
  = Some (initSchedule (initialBasis inp (cat_id cat))).
Proof.
  unfold ASSET_CATEGORIES. intros H.
  repeat (apply elem_of_cons in H as [-> | H]; [reflexivity|]).
  by apply elem_of_nil in H.
Qed.

Lemma allocateBasis_other (inp : Inputs) (k : string) :
  k ∉ map cat_id ASSET_CATEGORIES -> allocateBasis inp !! k = None.
Proof.
  intros H. unfold allocateBasis. cbn [fold_left ASSET_CATEGORIES cat_id].
  cbn [map ASSET_CATEGORIES cat_id] in H.
  repeat (rewrite lookup_insert_ne; [|intros <-; apply H; set_solver]).
  apply lookup_empty.
Qed.

(** ** The Section 179 and bonus steps *)

Lemma section179Step_eq r (cs : gmap string CategorySchedule) k c :
  cs !! k = Some c ->
  section179Step (r, cs) k = Some (remainingAfter r c, <[k := after179 r c]> cs).
Proof.
  intros H. unfold section179Step, remainingAfter, after179.
  destruct (Js.gt r 0); rewrite ?H; [reflexivity|].
  by rewrite insert_id.
Qed.

Lemma applySection179_eq inp (cs : gmap string CategorySchedule) c5 c7 c15 :
  cs !! "5year" = Some c5 -> cs !! "7year" = Some c7 -> cs !! "15year" = Some c15 ->
  let r0 := if useSection179 inp then section179Amount inp else 0 in
  let r1 := remainingAfter r0 c5 in
  let r2 := remainingAfter r1 c7 in
  applySection179 inp cs
  = Some (remainingAfter r2 c15,
          <["15year" := after179 r2 c15]>
            (<["7year" := after179 r1 c7]>
               (<["5year" := after179 r0 c5]> cs))).
Proof.
  intros H5 H7 H15 r0 r1 r2. unfold applySection179, eligible179.
  rewrite forEach_cons, (section179Step_eq _ _ _ _ H5).
  rewrite forEach_cons, (section179Step_eq _ _ _ c7)
    by (by rewrite lookup_insert_ne).
  rewrite forEach_cons, (section179Step_eq _ _ _ c15)
    by (by rewrite !lookup_insert_ne).
  reflexivity.
Qed.

Lemma bonusStep_eq inp (cs : gmap string CategorySchedule) k c :
  cs !! k = Some c ->
  bonusStep inp cs k = Some (<[k := afterBonus inp c]> cs).
Proof.
  intros H. unfold bonusStep, afterBonus, bonusApplies.
  destruct (useBonus inp && Js.gt (bonusRate (purchaseYear inp)) 0);
    rewrite ?H; [reflexivity|].
  by rewrite insert_id.
Qed.

Lemma applyBonus_eq inp (cs : gmap string CategorySchedule) c5 c7 c15 :
  cs !! "5year" = Some c5 -> cs !! "7year" = Some c7 -> cs !! "15year" = Some c15 ->
  applyBonus inp cs
  = Some (<["15year" := afterBonus inp c15]>
            (<["7year" := afterBonus inp c7]>
               (<["5year" := afterBonus inp c5]> cs))).
Proof.
  intros H5 H7 H15. unfold applyBonus, eligibleBonus.
  rewrite forEach_cons, (bonusStep_eq _ _ _ _ H5).
  rewrite forEach_cons, (bonusStep_eq _ _ _ c7)
    by (by rewrite lookup_insert_ne).
  rewrite forEach_cons, (bonusStep_eq _ _ _ c15)
    by (by rewrite !lookup_insert_ne).
  reflexivity.
Qed.

Lemma allocateBasis_5year inp :
  allocateBasis inp !! "5year" = Some (initSchedule (initialBasis inp "5year")).
Proof. reflexivity. Qed.

Lemma allocateBasis_7year inp :
  allocateBasis inp !! "7year" = Some (initSchedule (initialBasis inp "7year")).
Proof. reflexivity. Qed.

Lemma allocateBasis_15year inp :
  allocateBasis inp !! "15year" = Some (initSchedule (initialBasis inp "15year")).
Proof. reflexivity. Qed.

(** The schedules after the Section 179 step, as a function of the inputs. *)
Lemma applySection179_allocateBasis inp :
  let r0 := if useSection179 inp then section179Amount inp else 0 in
  let c5 := initSchedule (initialBasis inp "5year") in
  let c7 := initSchedule (initialBasis inp "7year") in
  let c15 := initSchedule (initialBasis inp "15year") in
  let r1 := remainingAfter r0 c5 in
  let r2 := remainingAfter r1 c7 in
  applySection179 inp (allocateBasis inp)
  = Some (remainingAfter r2 c15,
          <["15year" := after179 r2 c15]>
            (<["7year" := after179 r1 c7]>
               (<["5year" := after179 r0 c5]> (allocateBasis inp)))).
Proof.
  intros. apply applySection179_eq;
    [apply allocateBasis_5year | apply allocateBasis_7year | apply allocateBasis_15year].
Qed.

(** ** The yearly loop *)

Lemma fold_left_ext_in {A B : Type} (f g : A -> B -> A) (l : list B) (a : A) :
  (forall a x, x ∈ l -> f a x = g a x) -> fold_left f l a = fold_left g l a.
Proof.
  revert a. induction l as [|x l IH]; intros a H; [reflexivity|].
  cbn [fold_left]. rewrite H by left. apply IH.
  intros a' y Hy. apply H. by right.
Qed.

Lemma amountOf_ext inp (cs cs' : gmap string CategorySchedule) yr cat :
  cs' !! cat_id cat = cs !! cat_id cat ->
  amountOf inp cs' yr cat = amountOf inp cs yr cat.
Proof. intros H. unfold amountOf. by rewrite H. Qed.

Lemma categoryStep_eq inp yr yd (cs : gmap string CategorySchedule) cat c :
  cs !! cat_id cat = Some c ->
  categoryStep inp yr (yd, cs) cat
  = Some (mkYear (year yd) (addDep inp cs yr (depreciation yd) cat)
                 (addTotal inp cs yr (totalDepreciation yd) cat),
          <[cat_id cat := pushYear inp yr cat c]> cs).
Proof.
  intros H. unfold categoryStep, addDep, addTotal, amountOf, pushYear.
  destruct (Qeq_bool (cat_life cat) 0); rewrite ?H; [|reflexivity].
  by rewrite (insert_id cs _ _ H).
Qed.

Lemma categoryLoop inp yr (cats : list AssetCategory) :
  NoDup (map cat_id cats) ->
  forall yd (cs : gmap string CategorySchedule),
    (forall cat, cat ∈ cats -> is_Some (cs !! cat_id cat)) ->
    exists cs',
      Js.forEach (categoryStep inp yr) cats (yd, cs)
      = Some (mkYear (year yd)
                     (fold_left (addDep inp cs yr) cats (depreciation yd))
                     (fold_left (addTotal inp cs yr) cats (totalDepreciation yd)),
              cs') /\
      (forall cat, cat ∈ cats ->
         cs' !! cat_id cat = pushYear inp yr cat <$> cs !! cat_id cat) /\
      (forall k, k ∉ map cat_id cats -> cs' !! k = cs !! k).
Proof.
  induction cats as [|cat cats IH]; intros ND yd cs Hcov.
  - exists cs. split; [by destruct yd|]. split; [|done].
    intros cat H. by apply elem_of_nil in H.
  - cbn [map] in ND. apply NoDup_cons in ND as [Hnin ND].
    destruct (Hcov cat) as [c Hc]; [by left|].
    set (cs1 := <[cat_id cat := pushYear inp yr cat c]> cs).
    assert (Hsame : forall cat', cat' ∈ cats -> cs1 !! cat_id cat' = cs !! cat_id cat').
    { intros cat' H'. unfold cs1. apply lookup_insert_ne.
      intros E. apply Hnin. rewrite E. apply list_elem_of_fmap. by exists cat'. }
    destruct (IH ND
                (mkYear (year yd) (addDep inp cs yr (depreciation yd) cat)
                        (addTotal inp cs yr (totalDepreciation yd) cat)) cs1)
      as (cs' & Hrun & Hin & Hout).
    { intros cat' H'. rewrite Hsame by done. apply Hcov. by right. }
    exists cs'. split; [|split].
    + rewrite forEach_cons, (categoryStep_eq _ _ _ _ _ _ Hc). fold cs1.
      rewrite Hrun. cbn [fold_left year depreciation totalDepreciation].
      do 3 f_equal.
      * apply fold_left_ext_in. intros m x Hx. unfold addDep.
        by rewrite (amountOf_ext _ _ _ _ _ (Hsame x Hx)).
      * apply fold_left_ext_in. intros t x Hx. unfold addTotal.
        by rewrite (amountOf_ext _ _ _ _ _ (Hsame x Hx)).
    + intros cat' H'. apply elem_of_cons in H' as [-> | H'].
      * rewrite Hout by done. unfold cs1. by rewrite lookup_insert_eq, Hc.
      * rewrite Hin by done. by rewrite Hsame.
    + intros k Hk. cbn [map] in Hk. apply not_elem_of_cons in Hk as [Hk1 Hk2].
      rewrite Hout by done. unfold cs1. by rewrite lookup_insert_ne.
Qed.

Lemma ASSET_CATEGORIES_NoDup : NoDup (map cat_id ASSET_CATEGORIES).
Proof. apply (bool_decide_unpack _). by vm_compute. Qed.

Lemma yearStep_eq inp sched (cs : gmap string CategorySchedule) yr :
  covers cs ->
  exists cs',
    yearStep inp (sched, cs) yr = Some (sched ++ [rowOf inp cs yr], cs') /\
    (forall cat, cat ∈ ASSET_CATEGORIES ->
       cs' !! cat_id cat = pushYear inp yr cat <$> cs !! cat_id cat) /\
    (forall k, k ∉ map cat_id ASSET_CATEGORIES -> cs' !! k = cs !! k).
Proof.
  intros Hcov.
  destruct (categoryLoop inp yr ASSET_CATEGORIES ASSET_CATEGORIES_NoDup
              (mkYear (purchaseYear inp + Z.of_nat yr)%Z ∅ 0) cs Hcov)
    as (cs' & Hrun & Hin & Hout).
  exists cs'. split; [|by split].
  unfold yearStep. rewrite Hrun. reflexivity.
Qed.

Lemma yearDepreciationOf_pushYears inp cat n c yr :
  yearDepreciationOf (depreciationMethod inp) (cat_life cat)
                     (pushYears inp cat n c) yr
  = yearDepreciationOf (depreciationMethod inp) (cat_life cat) c yr.
Proof. unfold pushYears. by destruct (Qeq_bool (cat_life cat) 0). Qed.

Lemma pushYears_0 inp cat c : pushYears inp cat 0 c = c.
Proof.
  unfold pushYears. destruct (Qeq_bool (cat_life cat) 0); [done|].
  destruct c. cbn. by rewrite app_nil_r.
Qed.

Lemma pushYear_pushYears inp cat n c :
  pushYear inp n cat (pushYears inp cat n c) = pushYears inp cat (S n) c.
Proof.
  unfold pushYear. rewrite yearDepreciationOf_pushYears. unfold pushYears.
  destruct (Qeq_bool (cat_life cat) 0); [done|].
  cbn [basis yearlyDepreciation cumulative section179 bonusDepreciation].
  rewrite seq_S, map_app, fold_left_app, <- app_assoc. reflexivity.
Qed.

Lemma tracks_amountOf inp (cs2 cs : gmap string CategorySchedule) n yr cat :
  tracks inp cs2 n cs -> cat ∈ ASSET_CATEGORIES ->
  amountOf inp cs yr cat = amountOf inp cs2 yr cat.
Proof.
  intros [Hin _] Hcat. unfold amountOf. rewrite (Hin cat Hcat).
  destruct (cs2 !! cat_id cat); cbn; [|done].
  by rewrite yearDepreciationOf_pushYears.
Qed.

Lemma tracks_rowOf inp (cs2 cs : gmap string CategorySchedule) n yr :
  tracks inp cs2 n cs -> rowOf inp cs yr = rowOf inp cs2 yr.
Proof.
  intros H. unfold rowOf. f_equal; apply fold_left_ext_in; intros a x Hx.
  - unfold addDep. by rewrite (tracks_amountOf _ _ _ _ _ _ H Hx).
  - unfold addTotal. by rewrite (tracks_amountOf _ _ _ _ _ _ H Hx).
Qed.

Lemma tracks_covers inp (cs2 cs : gmap string CategorySchedule) n :
  covers cs2 -> tracks inp cs2 n cs -> covers cs.
Proof.
  intros Hcov [Hin _] cat Hcat. rewrite (Hin cat Hcat).
  destruct (Hcov cat Hcat) as [c ->]. by eexists.
Qed.

Lemma yearLoop inp (cs2 : gmap string CategorySchedule) n :
  covers cs2 ->
  exists cs,
    Js.forEach (yearStep inp) (seq 0 n) ([], cs2)
    = Some (map (rowOf inp cs2) (seq 0 n), cs) /\
    tracks inp cs2 n cs.
Proof.
  intros Hcov. induction n as [|n (cs & Hrun & Htr)].
  - exists cs2. split; [reflexivity|]. split; [|done].
    intros cat _. destruct (cs2 !! cat_id cat); cbn; [|done].
    by rewrite pushYears_0.
  - destruct (yearStep_eq inp (map (rowOf inp cs2) (seq 0 n)) cs n
                (tracks_covers _ _ _ _ Hcov Htr)) as (cs' & Hstep & Hin & Hout).
    exists cs'. split.
    + rewrite seq_S, forEach_app, Hrun. cbn [Js.forEach plus].
      rewrite Hstep, map_app, (tracks_rowOf _ _ _ _ _ Htr). reflexivity.
    + destruct Htr as [Htin Htout]. split.
      * intros cat Hcat. rewrite (Hin cat Hcat), (Htin cat Hcat).
        destruct (cs2 !! cat_id cat); cbn; [|done].
        by rewrite pushYear_pushYears.
      * intros k Hk. by rewrite Hout, Htout.
Qed.

(** ** The whole closure *)

Lemma stage179 inp :
  exists cs1,
    applySection179 inp (allocateBasis inp) = Some (remainingFinal inp, cs1) /\
    (forall cat, cat ∈ ASSET_CATEGORIES ->
       cs1 !! cat_id cat = Some (entry179 inp (cat_id cat))) /\
    (forall k, k ∉ map cat_id ASSET_CATEGORIES -> cs1 !! k = None).
Proof.
  eexists. split; [apply applySection179_allocateBasis|]. split.
  - unfold ASSET_CATEGORIES. intros cat H.
    repeat (apply elem_of_cons in H as [-> | H]; [reflexivity|]).
    by apply elem_of_nil in H.
  - intros k Hk. cbn [map ASSET_CATEGORIES cat_id] in Hk.
    rewrite !lookup_insert_ne by (intros <-; apply Hk; set_solver).
    by apply allocateBasis_other.
Qed.

Lemma stageBonus inp (cs1 : gmap string CategorySchedule) :
  (forall cat, cat ∈ ASSET_CATEGORIES ->
     cs1 !! cat_id cat = Some (entry179 inp (cat_id cat))) ->
  (forall k, k ∉ map cat_id ASSET_CATEGORIES -> cs1 !! k = None) ->
  exists cs2,
    applyBonus inp cs1 = Some cs2 /\
    (forall cat, cat ∈ ASSET_CATEGORIES ->
       cs2 !! cat_id cat = Some (entryBonus inp (cat_id cat))) /\
    (forall k, k ∉ map cat_id ASSET_CATEGORIES -> cs2 !! k = None).
Proof.
  intros Hin Hout. eexists. split; [|split].
  - apply applyBonus_eq.
    + apply (Hin (mkCategory "5year" 5)). in_list.
    + apply (Hin (mkCategory "7year" 7)). in_list.
    + apply (Hin (mkCategory "15year" 15)). in_list.
  - intros cat H. pose proof (Hin cat H) as Hc. revert Hc.
    unfold ASSET_CATEGORIES in H.
    repeat (apply elem_of_cons in H as [-> | H];
            [intros Hc; cbn [cat_id]; simplify_map_eq; reflexivity|]).
    by apply elem_of_nil in H.
  - intros k Hk. cbn [map ASSET_CATEGORIES cat_id] in Hk.
    rewrite !lookup_insert_ne by (intros <-; apply Hk; set_solver).
    by apply Hout.
Qed.

Lemma scheduleData_eq inp :
  exists cs1 cs2 cs3,
    applySection179 inp (allocateBasis inp) = Some (remainingFinal inp, cs1) /\
    applyBonus inp cs1 = Some cs2 /\
    scheduleData inp = Some (mkResult (map (rowOf inp cs2) (seq 0 years)) cs3) /\
    (forall cat, cat ∈ ASSET_CATEGORIES ->
       cs1 !! cat_id cat = Some (entry179 inp (cat_id cat))) /\
    (forall cat, cat ∈ ASSET_CATEGORIES ->
       cs2 !! cat_id cat = Some (entryBonus inp (cat_id cat))) /\
    (forall cat, cat ∈ ASSET_CATEGORIES ->
       cs3 !! cat_id cat
       = Some (pushYears inp cat years (entryBonus inp (cat_id cat)))) /\
    (forall k, k ∉ map cat_id ASSET_CATEGORIES -> cs3 !! k = None).
Proof.
  destruct (stage179 inp) as (cs1 & H1 & Hin1 & Hout1).
  destruct (stageBonus inp cs1 Hin1 Hout1) as (cs2 & H2 & Hin2 & Hout2).
  assert (Hcov : covers cs2) by (intros cat Hcat; rewrite (Hin2 cat Hcat); by eexists).
  destruct (yearLoop inp cs2 years Hcov) as (cs3 & H3 & Hin3 & Hout3).
  exists cs1, cs2, cs3. repeat split; try assumption.
  - unfold scheduleData. rewrite H1, H2, H3. reflexivity.
  - intros cat Hcat. by rewrite (Hin3 cat Hcat), (Hin2 cat Hcat).
  - intros k Hk. by rewrite Hout3, Hout2.
Qed.

Lemma rowOf_lookup inp (cs : gmap string CategorySchedule) yr cat :
  cat ∈ ASSET_CATEGORIES ->
  depreciation (rowOf inp cs yr) !! cat_id cat = Some (amountOf inp cs yr cat).
Proof.
  unfold ASSET_CATEGORIES. intros H.
  repeat (apply elem_of_cons in H as [-> | H]; [reflexivity|]).
  by apply elem_of_nil in H.
Qed.

Lemma rowOf_dom inp (cs : gmap string CategorySchedule) yr :
  dom (depreciation (rowOf inp cs yr))
  = list_to_set (map cat_id ASSET_CATEGORIES).
Proof.
  unfold rowOf, addDep. cbn [depreciation fold_left ASSET_CATEGORIES map cat_id].
  rewrite !dom_insert_L, dom_empty_L. cbn [list_to_set]. set_solver.
Qed.

Lemma rowOf_total inp (cs : gmap string CategorySchedule) yr :
  totalDepreciation (rowOf inp cs yr)
  == sumQ (map (amountOf inp cs yr) ASSET_CATEGORIES).
Proof.
  unfold rowOf, sumQ. cbn [totalDepreciation ASSET_CATEGORIES map fold_right].
  change (fold_left (addTotal inp cs yr) _ 0)
    with (0 + amountOf inp cs yr (mkCategory "5year" 5)
            + amountOf inp cs yr (mkCategory "7year" 7)
            + amountOf inp cs yr (mkCategory "15year" 15)
            + amountOf inp cs yr (mkCategory "residential" 27.5)
            + amountOf inp cs yr (mkCategory "commercial" 39)).
  change (amountOf inp cs yr (mkCategory "land" 0)) with 0.
  ring.
Qed.

Lemma amountOf_reported inp (cs2 : gmap string CategorySchedule) yr cat :
  cs2 !! cat_id cat = Some (entryBonus inp (cat_id cat)) ->
  amountOf inp cs2 yr cat = reported inp cat yr.
Proof. intros H. unfold amountOf, reported. by rewrite H. Qed.

Lemma schedule_lookup inp (cs2 : gmap string CategorySchedule) (i : nat) :
  (i < years)%nat ->
  map (rowOf inp cs2) (seq 0 years) !! i = Some (rowOf inp cs2 i).
Proof.
  intros H. rewrite list_lookup_fmap, lookup_seq_lt by done. reflexivity.
Qed.

Lemma pushYears_core inp cat n c :
  basis (pushYears inp cat n c) = basis c /\
  section179 (pushYears inp cat n c) = section179 c /\
  bonusDepreciation (pushYears inp cat n c) = bonusDepreciation c.
Proof. unfold pushYears. by destruct (Qeq_bool (cat_life cat) 0). Qed.

(** What the closure returns, read off its result. *)
Lemma scheduleData_result inp :
  exists res,
    scheduleData inp = Some res /\
    length (schedule res) = years /\
    (forall i, (i < years)%nat ->
       exists row,
         schedule res !! i = Some row /\
         year row = (purchaseYear inp + Z.of_nat i)%Z /\
         dom (depreciation row) = list_to_set (map cat_id ASSET_CATEGORIES) /\
         (forall cat, cat ∈ ASSET_CATEGORIES ->
            depreciation row !! cat_id cat = Some (reported inp cat i)) /\
         totalDepreciation row
         == sumQ (map (fun cat => reported inp cat i) ASSET_CATEGORIES)) /\
    (forall cat, cat ∈ ASSET_CATEGORIES ->
       categorySchedules res !! cat_id cat
       = Some (pushYears inp cat years (entryBonus inp (cat_id cat)))) /\
    (forall k, k ∉ map cat_id ASSET_CATEGORIES ->
       categorySchedules res !! k = None).
Proof.
  destruct (scheduleData_eq inp) as (cs1 & cs2 & cs3 & _ & _ & H & _ & H2 & H3 & H4).
  eexists. split; [exact H|]. cbn [schedule categorySchedules].
  split; [by rewrite length_map, length_seq|].
  split; [|by split].
  intros i Hi. exists (rowOf inp cs2 i).
  split; [by apply schedule_lookup|].
  split; [reflexivity|].
  split; [apply rowOf_dom|].
  split.
  - intros cat Hcat. rewrite rowOf_lookup by done.
    by rewrite (amountOf_reported _ _ _ _ (H2 cat Hcat)).
  - rewrite rowOf_total. unfold ASSET_CATEGORIES in *. cbn [map].
    rewrite !amountOf_reported by (apply H2; in_list). reflexivity.
Qed.

(** ** Allocation *)

(** C7, amended. Allocation conservation, in exact arithmetic: the bases
    that lines 73-79 give the six categories add up to [totalCost] times the
    sum of the allocation percentages over 100, whatever the percentages are
    (they are neither clamped nor required to add up to 100), and the closure
    still returns a result. *)
Theorem allocation_conservation (inp : Inputs) :
  exists bs,
    mapM (fun cat => basis <$> allocateBasis inp !! cat_id cat) ASSET_CATEGORIES
    = Some bs /\
    sumQ bs
    == totalCost inp
       * sumQ (map (fun cat => allocations inp (cat_id cat)) ASSET_CATEGORIES)
       / 100 /\
    is_Some (scheduleData inp).
Proof.
  eexists. split; [reflexivity|]. split.
  - unfold sumQ, initialBasis, initSchedule.
    cbn [map fold_right ASSET_CATEGORIES cat_id basis]. field.
  - destruct (scheduleData_result inp) as (res & -> & _). by eexists.
Qed.

(** ** Section 179 *)

Lemma after179_skip r c : r <= 0 -> after179 r c = c /\ remainingAfter r c = r.
Proof.
  intros H. apply gt_false in H. unfold after179, remainingAfter. by rewrite H.
Qed.

Lemma remainingBefore_skip inp k :
  remaining0 inp <= 0 -> remainingBefore inp k = remaining0 inp.
Proof.
  intros H. unfold remainingBefore, eligible179. cbn [remainingBeforeIn].
  repeat (rewrite (proj2 (after179_skip _ _ H))).
  by repeat destruct (String.eqb _ k).
Qed.

Lemma entry179_skip inp k :
  remaining0 inp <= 0 -> entry179 inp k = initSchedule (initialBasis inp k).
Proof.
  intros H. unfold entry179. destruct (isEligible k); [|done].
  rewrite remainingBefore_skip by done. by apply after179_skip.
Qed.

Lemma remaining0_nonpos inp :
  useSection179 inp = false \/ section179Amount inp <= 0 -> remaining0 inp <= 0.
Proof.
  unfold remaining0. intros [-> | H]; [apply Qle_refl|].
  destruct (useSection179 inp); [exact H | apply Qle_refl].
Qed.

Lemma section179Step_skip r (cs : gmap string CategorySchedule) k :
  r <= 0 -> section179Step (r, cs) k = Some (r, cs).
Proof. intros H. apply gt_false in H. unfold section179Step. by rewrite H. Qed.

(** C9. When Section 179 is not elected, or the requested amount is zero or
    negative, the Section 179 loop changes nothing: it returns the schedules
    it was given (no entry gains a [section179] amount, no basis changes), the
    amount to deduct is left as it was, and no entry of the closure's result
    carries a Section 179 amount; a negative request yields no deduction of
    any sign. *)
Theorem section179_not_applied (inp : Inputs) :
  useSection179 inp = false \/ section179Amount inp <= 0 ->
  (forall cs : gmap string CategorySchedule,
     applySection179 inp cs = Some (remaining0 inp, cs)) /\
  exists res,
    scheduleData inp = Some res /\
    forall k c, categorySchedules res !! k = Some c -> section179 c = None.
Proof.
  intros H. apply remaining0_nonpos in H. split.
  - intros cs. unfold applySection179, eligible179. fold (remaining0 inp).
    do 3 (rewrite forEach_cons, section179Step_skip by exact H).
    reflexivity.
  - destruct (scheduleData_result inp) as (res & Hres & _ & _ & Hin & Hout).
    exists res. split; [exact Hres|]. intros k c Hk.
    destruct (decide (k ∈ map cat_id ASSET_CATEGORIES)) as [Hk'|Hk'].
    + apply list_elem_of_fmap in Hk' as (cat & -> & Hcat).
      rewrite (Hin cat Hcat) in Hk. injection Hk as <-.
      destruct (pushYears_core inp cat years (entryBonus inp (cat_id cat)))
        as (_ & -> & _).
      unfold entryBonus, afterBonus. rewrite entry179_skip by done.
      by destruct (isEligible (cat_id cat)), (bonusApplies inp).
    + by rewrite (Hout k Hk') in Hk.
Qed.

Lemma section179_not_applied_witness :
  (forall cs : gmap string CategorySchedule,
     applySection179 (electing179 (-500)) cs
     = Some (remaining0 (electing179 (-500)), cs)) /\
  exists res,
    scheduleData (electing179 (-500)) = Some res /\
    forall k c, categorySchedules res !! k = Some c -> section179 c = None.
Proof.
  apply (section179_not_applied (electing179 (-500))).
  right. unfold Qle. cbn. lia.
Defined.

Lemma after179_init r r' b :
  r == r' -> 0 <= r -> 0 <= b ->
  Js.or0 (section179 (after179 r (initSchedule b))) == Qmin r' b /\
  basis (after179 r (initSchedule b)) == b - Qmin r' b /\
  remainingAfter r (initSchedule b) == r' - Qmin r' b /\
  0 <= remainingAfter r (initSchedule b).
Proof.
  intros <- Hr Hb. unfold after179, remainingAfter, Js.Math_min, initSchedule.
  destruct (Js.gt r 0) eqn:E;
    cbn [basis section179 yearlyDepreciation cumulative bonusDepreciation].
  - rewrite or0_Some.
    destruct (Q.min_spec r b) as [[? Hm]|[? Hm]]; repeat split; lra.
  - apply gt_false in E. rewrite or0_None.
    assert (Hm : Qmin r b == r) by (apply Q.min_l; lra).
    repeat split; lra.
Qed.

(** C1, amended. In exact arithmetic, with Section 179 elected, for a
    non-negative requested amount and non-negative allocated bases (the
    input contract), the loop visits
    5year, 7year, 15year in that order with a running remainder that starts
    at [section179Amount]: each category's deduction is the minimum of the
    remainder and its basis, is recorded as its Section 179 amount, and is
    taken off both its basis and the remainder; the other categories are not
    touched; once the remainder is zero the later categories get zero; and the
    total deducted is at most the minimum of the requested amount and the sum
    of the three bases. *)
Theorem section179_fixed_order (inp : Inputs) :
  useSection179 inp = true ->
  0 <= section179Amount inp ->
  0 <= initialBasis inp "5year" ->
  0 <= initialBasis inp "7year" ->
  0 <= initialBasis inp "15year" ->
  let b5 := initialBasis inp "5year" in
  let b7 := initialBasis inp "7year" in
  let b15 := initialBasis inp "15year" in
  let r0 := section179Amount inp in
  let d5 := Qmin r0 b5 in
  let r1 := r0 - d5 in
  let d7 := Qmin r1 b7 in
  let r2 := r1 - d7 in
  let d15 := Qmin r2 b15 in
  let r3 := r2 - d15 in
  exists r cs1,
    applySection179 inp (allocateBasis inp) = Some (r, cs1) /\
    r == r3 /\
    records179 cs1 "5year" d5 (b5 - d5) /\
    records179 cs1 "7year" d7 (b7 - d7) /\
    records179 cs1 "15year" d15 (b15 - d15) /\
    (forall k, k ∉ eligible179 -> cs1 !! k = allocateBasis inp !! k) /\
    (r0 == 0 -> d5 == 0 /\ d7 == 0 /\ d15 == 0) /\
    (r1 == 0 -> d7 == 0 /\ d15 == 0) /\
    (r2 == 0 -> d15 == 0) /\
    d5 + d7 + d15 <= Qmin (section179Amount inp) (b5 + b7 + b15).
Proof.
  intros Huse Hr0 Hb5 Hb7 Hb15 b5 b7 b15 r0 d5 r1 d7 r2 d15 r3.
  pose proof (applySection179_allocateBasis inp) as Hrun. cbv zeta in Hrun.
  rewrite Huse in Hrun. fold b5 b7 b15 r0 in Hrun.
  destruct (after179_init r0 r0 b5 (Qeq_refl _) Hr0 Hb5)
    as (Hs5 & Hbas5 & Hrem1 & Hpos1).
  destruct (after179_init _ r1 b7 Hrem1 Hpos1 Hb7)
    as (Hs7 & Hbas7 & Hrem2 & Hpos2).
  destruct (after179_init _ r2 b15 Hrem2 Hpos2 Hb15)
    as (Hs15 & Hbas15 & Hrem3 & Hpos3).
  eexists _, _. split; [exact Hrun|].
  split; [exact Hrem3|].
  split; [by eexists; split; [reflexivity|]|].
  split; [by eexists; split; [reflexivity|]|].
  split; [by eexists; split; [reflexivity|]|].
  split.
  { intros k Hk. unfold eligible179 in Hk.
    rewrite !lookup_insert_ne; [done| | |]; intros <-; apply Hk; in_list. }
  assert (H5 := Q.min_spec r0 b5). assert (H7 := Q.min_spec r1 b7).
  assert (H15 := Q.min_spec r2 b15).
  clear Hrun Hs5 Hs7 Hs15 Hbas5 Hbas7 Hbas15.
  subst r3 d15 r2 d7 r1 d5 r0 b5 b7 b15.
  split; [intros H0; repeat split; lra|].
  split; [intros H0; repeat split; lra|].
  split; [intros H0; lra|].
  apply Q.min_glb; lra.
Qed.

Lemma section179_fixed_order_witness :
  exists r cs1,
    applySection179 (electing179 100000) (allocateBasis (electing179 100000))
    = Some (r, cs1) /\
    r == 0 /\
    records179 cs1 "5year" 80000 0 /\
    records179 cs1 "7year" 20000 30000 /\
    records179 cs1 "15year" 0 120000.
Proof.
  destruct (section179_fixed_order (electing179 100000))
    as (r & cs1 & Hrun & Hr & (c5 & H5 & Hs5 & Hb5) & (c7 & H7 & Hs7 & Hb7)
        & (c15 & H15 & Hs15 & Hb15) & _).
  - reflexivity.
  - unfold Qle. cbn. lia.
  - unfold Qle. vm_compute. discriminate.
  - unfold Qle. vm_compute. discriminate.
  - unfold Qle. vm_compute. discriminate.
  - exists r, cs1. split; [exact Hrun|].
    split; [rewrite Hr; vm_compute; reflexivity|].
    split; [|split].
    + exists c5. split; [exact H5|].
      split; [rewrite Hs5 | rewrite Hb5]; vm_compute; reflexivity.
    + exists c7. split; [exact H7|].
      split; [rewrite Hs7 | rewrite Hb7]; vm_compute; reflexivity.
    + exists c15. split; [exact H15|].
      split; [rewrite Hs15 | rewrite Hb15]; vm_compute; reflexivity.
Defined.

(** ** Bonus depreciation *)

(** C2. The bonus loop acts exactly when bonus is elected and the bonus rate
    of the placed-in-service year is positive.  Then each of 5year, 7year,
    15year gets, on its own, a bonus amount equal to the basis the Section
    179 loop left it times that one rate, and the bonus is taken off its
    basis; its Section 179 amount stays.  Otherwise the loop returns the
    schedules unchanged.  The other categories are never touched. *)
Theorem bonus_per_category (inp : Inputs) :
  exists r cs1 cs2,
    applySection179 inp (allocateBasis inp) = Some (r, cs1) /\
    applyBonus inp cs1 = Some cs2 /\
    (useBonus inp = true /\ 0 < bonusRate (purchaseYear inp) ->
     forall k, k ∈ eligibleBonus ->
       exists c1 c2,
         cs1 !! k = Some c1 /\ cs2 !! k = Some c2 /\
         bonusDepreciation c2 = Some (basis c1 * bonusRate (purchaseYear inp)) /\
         basis c2 = basis c1 - basis c1 * bonusRate (purchaseYear inp) /\
         section179 c2 = section179 c1) /\
    (~ (useBonus inp = true /\ 0 < bonusRate (purchaseYear inp)) -> cs2 = cs1) /\
    (forall k, k ∉ eligibleBonus -> cs2 !! k = cs1 !! k).
Proof.
  destruct (stage179 inp) as (cs1 & H1 & Hin1 & Hout1).
  assert (H5 := Hin1 (mkCategory "5year" 5) ltac:(in_list)).
  assert (H7 := Hin1 (mkCategory "7year" 7) ltac:(in_list)).
  assert (H15 := Hin1 (mkCategory "15year" 15) ltac:(in_list)).
  cbn [cat_id] in H5, H7, H15.
  eexists _, cs1, _. split; [exact H1|].
  split; [exact (applyBonus_eq inp cs1 _ _ _ H5 H7 H15)|].
  assert (Hguard : bonusApplies inp = true
                   <-> useBonus inp = true /\ 0 < bonusRate (purchaseYear inp)).
  { unfold bonusApplies. by rewrite andb_true_iff, gt_true. }
  split; [|split].
  - intros Hon. apply Hguard in Hon. unfold eligibleBonus. intros k Hk.
    repeat (apply elem_of_cons in Hk as [-> | Hk];
            [ eexists _, _; split; [eassumption|];
              split; [by simplify_map_eq|];
              unfold afterBonus; rewrite Hon; by cbn |]).
    by apply elem_of_nil in Hk.
  - intros Hoff. assert (Hb : bonusApplies inp = false).
    { destruct (bonusApplies inp); [|done]. destruct Hoff. by apply Hguard. }
    unfold afterBonus. rewrite Hb.
    rewrite (insert_id cs1 "5year") by done.
    rewrite (insert_id cs1 "7year") by done.
    by rewrite (insert_id cs1 "15year").
  - intros k Hk. unfold eligibleBonus in Hk.
    rewrite !lookup_insert_ne; [done| | |]; intros <-; apply Hk; in_list.
Qed.

(** ** Conservation of basis *)

Lemma entryBonus_conserved inp k :
  Js.or0 (section179 (entryBonus inp k))
  + Js.or0 (bonusDepreciation (entryBonus inp k))
  + basis (entryBonus inp k)
  == initialBasis inp k.
Proof.
  unfold entryBonus, entry179, afterBonus, after179, initSchedule.
  destruct (isEligible k), (bonusApplies inp);
    try destruct (Js.gt (remainingBefore inp k) 0);
    cbn [basis section179 bonusDepreciation];
    rewrite ?or0_Some, ?or0_None; ring.
Qed.

Lemma entryBonus_not_eligible inp k :
  isEligible k = false -> entryBonus inp k = initSchedule (initialBasis inp k).
Proof. intros H. unfold entryBonus, entry179. by rewrite H. Qed.

(** C8. Basis is conserved by the two deduction loops: for 5year, 7year and
    15year the recorded Section 179 amount plus the recorded bonus amount plus
    the basis that remains equals the allocated basis, both right after the
    loops and in the closure's result; the bases of land, residential and
    commercial are the allocated ones after each loop and in the result,
    whatever the elections. *)
Theorem basis_conservation (inp : Inputs) :
  exists r cs1 cs2 res,
    applySection179 inp (allocateBasis inp) = Some (r, cs1) /\
    applyBonus inp cs1 = Some cs2 /\
    scheduleData inp = Some res /\
    (forall k, k ∈ eligible179 ->
       exists c2 c3,
         cs2 !! k = Some c2 /\ categorySchedules res !! k = Some c3 /\
         Js.or0 (section179 c2) + Js.or0 (bonusDepreciation c2) + basis c2
         == initialBasis inp k /\
         Js.or0 (section179 c3) + Js.or0 (bonusDepreciation c3) + basis c3
         == initialBasis inp k) /\
    (forall k, k ∈ ["land"; "residential"; "commercial"] ->
       exists c1 c2 c3,
         cs1 !! k = Some c1 /\ cs2 !! k = Some c2 /\
         categorySchedules res !! k = Some c3 /\
         basis c1 = initialBasis inp k /\
         basis c2 = initialBasis inp k /\
         basis c3 = initialBasis inp k).
Proof.
  destruct (scheduleData_eq inp)
    as (cs1 & cs2 & cs3 & H1 & H2 & H3 & Hin1 & Hin2 & Hin3 & _).
  eexists _, cs1, cs2, _. split; [exact H1|]. split; [exact H2|].
  split; [exact H3|]. cbn [categorySchedules]. split.
  - assert (Hall : forall cat, cat ∈ ASSET_CATEGORIES ->
               exists c2 c3,
                 cs2 !! cat_id cat = Some c2 /\ cs3 !! cat_id cat = Some c3 /\
                 Js.or0 (section179 c2) + Js.or0 (bonusDepreciation c2) + basis c2
                 == initialBasis inp (cat_id cat) /\
                 Js.or0 (section179 c3) + Js.or0 (bonusDepreciation c3) + basis c3
                 == initialBasis inp (cat_id cat)).
    { intros cat Hcat. eexists _, _.
      split; [exact (Hin2 cat Hcat)|]. split; [exact (Hin3 cat Hcat)|].
      destruct (pushYears_core inp cat years (entryBonus inp (cat_id cat)))
        as (-> & -> & ->).
      split; apply entryBonus_conserved. }
    unfold eligible179. intros k Hk.
    apply elem_of_cons in Hk as [-> | Hk];
      [apply (Hall (mkCategory "5year" 5)); in_list|].
    apply elem_of_cons in Hk as [-> | Hk];
      [apply (Hall (mkCategory "7year" 7)); in_list|].
    apply elem_of_cons in Hk as [-> | Hk];
      [apply (Hall (mkCategory "15year" 15)); in_list|].
    by apply elem_of_nil in Hk.
  - assert (Hall : forall cat, cat ∈ ASSET_CATEGORIES ->
               isEligible (cat_id cat) = false ->
               exists c1 c2 c3,
                 cs1 !! cat_id cat = Some c1 /\ cs2 !! cat_id cat = Some c2 /\
                 cs3 !! cat_id cat = Some c3 /\
                 basis c1 = initialBasis inp (cat_id cat) /\
                 basis c2 = initialBasis inp (cat_id cat) /\
                 basis c3 = initialBasis inp (cat_id cat)).
    { intros cat Hcat Hne. eexists _, _, _.
      split; [exact (Hin1 cat Hcat)|]. split; [exact (Hin2 cat Hcat)|].
      split; [exact (Hin3 cat Hcat)|].
      destruct (pushYears_core inp cat years (entryBonus inp (cat_id cat)))
        as (-> & _).
      rewrite entryBonus_not_eligible by done.
      unfold entry179. by rewrite Hne. }
    intros k Hk.
    apply elem_of_cons in Hk as [-> | Hk];
      [apply (Hall (mkCategory "land" 0)); [in_list | reflexivity]|].
    apply elem_of_cons in Hk as [-> | Hk];
      [apply (Hall (mkCategory "residential" 27.5)); [in_list | reflexivity]|].
    apply elem_of_cons in Hk as [-> | Hk];
      [apply (Hall (mkCategory "commercial" 39)); [in_list | reflexivity]|].
    by apply elem_of_nil in Hk.
Qed.

(** ** Shape of the result *)

Lemma mapM_lookup_all {A B : Type} (f : A -> option B) (g : A -> B) (l : list A) :
  (forall x, x ∈ l -> f x = Some (g x)) -> mapM f l = Some (map g l).
Proof.
  intros H. apply mapM_Some. induction l as [|x l IH]; [constructor|].
  cbn [map]. constructor; [apply H; by left|].
  apply IH. intros y Hy. apply H. by right.
Qed.

(** C6. The result has exactly 40 yearly rows; row [i] carries the calendar
    year [purchaseYear + i] and an amount for each of the six categories (and
    for nothing else), and its total is the sum of these six amounts. *)
Theorem schedule_shape (inp : Inputs) :
  exists res,
    scheduleData inp = Some res /\
    length (schedule res) = 40%nat /\
    length ASSET_CATEGORIES = 6%nat /\
    forall i, (i < 40)%nat ->
      exists row amounts,
        schedule res !! i = Some row /\
        year row = (purchaseYear inp + Z.of_nat i)%Z /\
        dom (depreciation row) = list_to_set (map cat_id ASSET_CATEGORIES) /\
        mapM (fun cat => depreciation row !! cat_id cat) ASSET_CATEGORIES
        = Some amounts /\
        totalDepreciation row == sumQ amounts.
Proof.
  destruct (scheduleData_result inp) as (res & Hres & Hlen & Hrows & _).
  exists res. split; [exact Hres|]. split; [exact Hlen|].
  split; [reflexivity|]. intros i Hi.
  destruct (Hrows i Hi) as (row & Hrow & Hyear & Hdom & Hdep & Htot).
  exists row, (map (fun cat => reported inp cat i) ASSET_CATEGORIES).
  split; [exact Hrow|]. split; [exact Hyear|]. split; [exact Hdom|].
  split; [|exact Htot].
  by apply (mapM_lookup_all (fun cat => depreciation row !! cat_id cat)).
Qed.

(** ** First-year deductions *)

Lemma periodicDepreciation_land method basis yr :
  periodicDepreciation method 0 basis yr = 0.
Proof.
  unfold periodicDepreciation. destruct (String.eqb method "macrs"); [reflexivity|].
  assert (H : Js.lt (inject_Z (Z.of_nat yr)) 0 = false).
  { apply lt_false. unfold Qle. cbn. lia. }
  by rewrite H.
Qed.

(** C3. For every category and every input, the amount reported in year index
    0 is the category's periodic amount for index 0 plus its recorded Section
    179 amount plus its recorded bonus amount, and the amount reported in any
    later year of the horizon is the periodic amount alone. *)
Theorem first_year_deductions (inp : Inputs) :
  exists res,
    scheduleData inp = Some res /\
    forall cat, cat ∈ ASSET_CATEGORIES ->
      exists c,
        categorySchedules res !! cat_id cat = Some c /\
        forall i, (i < 40)%nat ->
          exists row v,
            schedule res !! i = Some row /\
            depreciation row !! cat_id cat = Some v /\
            v == (if (i =? 0)%nat
                  then periodicDepreciation (depreciationMethod inp)
                         (cat_life cat) (basis c) 0
                       + Js.or0 (section179 c) + Js.or0 (bonusDepreciation c)
                  else periodicDepreciation (depreciationMethod inp)
                         (cat_life cat) (basis c) i).
Proof.
  destruct (scheduleData_result inp) as (res & Hres & _ & Hrows & Hin & _).
  exists res. split; [exact Hres|]. intros cat Hcat.
  eexists. split; [exact (Hin cat Hcat)|]. intros i Hi.
  destruct (Hrows i Hi) as (row & Hrow & _ & _ & Hdep & _).
  exists row, (reported inp cat i). split; [exact Hrow|].
  split; [exact (Hdep cat Hcat)|].
  destruct (pushYears_core inp cat years (entryBonus inp (cat_id cat)))
    as (-> & -> & ->).
  unfold reported. destruct (Qeq_bool (cat_life cat) 0) eqn:E.
  - assert (Hland : cat = mkCategory "land" 0).
    { revert E. unfold ASSET_CATEGORIES in Hcat.
      repeat (apply elem_of_cons in Hcat as [-> | Hcat];
              [first [reflexivity | intros E; vm_compute in E; discriminate]|]).
      by apply elem_of_nil in Hcat. }
    subst cat. cbn [cat_life cat_id].
    rewrite !periodicDepreciation_land.
    rewrite (entryBonus_not_eligible inp "land") by reflexivity.
    cbn [initSchedule section179 bonusDepreciation]. rewrite or0_None.
    destruct (i =? 0)%nat; ring.
  - unfold yearDepreciationOf. destruct (i =? 0)%nat eqn:Ei; [|reflexivity].
    apply Nat.eqb_eq in Ei. subst i. ring.
Qed.

(** ** Straight-line method *)

Lemma periodicDepreciation_straight method life basis yr :
  method <> "macrs" ->
  periodicDepreciation method life basis yr
  = if Js.lt (inject_Z (Z.of_nat yr)) life then basis / life else 0.
Proof.
  intros H. apply String.eqb_neq in H. unfold periodicDepreciation. by rewrite H.
Qed.

(** C4, as stated, fails: with the whole cost 275 on the 27.5-year category
    and the straight-line method, year index 27 lies after [L - 1 = 26.5] and
    still reports 275 / 27.5 = 10, not 0. *)
Lemma straight_line_residential_year27 :
  exists res row v,
    scheduleData residentialStraight = Some res /\
    schedule res !! 27%nat = Some row /\
    depreciation row !! "residential" = Some v /\
    27.5 - 1 < inject_Z 27 /\
    v == 10 /\
    ~ v == 0.
Proof.
  destruct (scheduleData_result residentialStraight)
    as (res & Hres & _ & Hrows & _).
  destruct (Hrows 27%nat) as (row & Hrow & _ & _ & Hdep & _);
    [unfold years; lia|].
  exists res, row, (reported residentialStraight (mkCategory "residential" 27.5) 27).
  split; [exact Hres|]. split; [exact Hrow|].
  split; [apply (Hdep (mkCategory "residential" 27.5)); in_list|].
  split; [reflexivity|].
  split; [vm_compute; reflexivity | vm_compute; discriminate].
Qed.

(** C4, amended. Under any method other than ['macrs'], a category of life
    [L > 0] whose basis after the two deduction loops is [B] reports [B / L]
    in every year index [i < L] (the Section 179 and bonus amounts are added
    in year 0 only) and 0 in every year index [i >= L] of the horizon; the
    comparison is numeric, so the 27.5-year category reports [B / 27.5] for
    the 28 indices 0..27, with no proration of any year. *)
Theorem straight_line_schedule (inp : Inputs) :
  depreciationMethod inp <> "macrs" ->
  exists res,
    scheduleData inp = Some res /\
    forall cat, cat ∈ ASSET_CATEGORIES -> 0 < cat_life cat ->
      exists c,
        categorySchedules res !! cat_id cat = Some c /\
        forall i, (i < 40)%nat ->
          exists row v,
            schedule res !! i = Some row /\
            depreciation row !! cat_id cat = Some v /\
            (inject_Z (Z.of_nat i) < cat_life cat ->
             v == basis c / cat_life cat
                  + (if (i =? 0)%nat
                     then Js.or0 (section179 c) + Js.or0 (bonusDepreciation c)
                     else 0)) /\
            (cat_life cat <= inject_Z (Z.of_nat i) -> v == 0).
Proof.
  intros Hm.
  destruct (scheduleData_result inp) as (res & Hres & _ & Hrows & Hin & _).
  exists res. split; [exact Hres|]. intros cat Hcat Hlife.
  eexists. split; [exact (Hin cat Hcat)|]. intros i Hi.
  destruct (Hrows i Hi) as (row & Hrow & _ & _ & Hdep & _).
  exists row, (reported inp cat i). split; [exact Hrow|].
  split; [exact (Hdep cat Hcat)|].
  destruct (pushYears_core inp cat years (entryBonus inp (cat_id cat)))
    as (-> & -> & ->).
  assert (E : Qeq_bool (cat_life cat) 0 = false).
  { apply not_true_iff_false. intros E. apply Qeq_bool_iff in E. lra. }
  unfold reported, yearDepreciationOf. rewrite E.
  rewrite !periodicDepreciation_straight by done. split.
  - intros Hlt. assert (Hlt0 : inject_Z (Z.of_nat 0) < cat_life cat) by exact Hlife.
    apply lt_true in Hlt, Hlt0. rewrite Hlt.
    destruct (i =? 0)%nat eqn:Ei; [|ring].
    apply Nat.eqb_eq in Ei. subst i. reflexivity.
  - intros Hge. destruct (i =? 0)%nat eqn:Ei.
    + apply Nat.eqb_eq in Ei. subst i.
      change (inject_Z (Z.of_nat 0)) with 0 in Hge. lra.
    + apply lt_false in Hge. rewrite Hge. reflexivity.
Qed.

Lemma straight_line_schedule_witness :
  exists res,
    scheduleData residentialStraight = Some res /\
    exists c,
      categorySchedules res !! "residential" = Some c /\
      forall i, (i < 40)%nat ->
        exists row v,
          schedule res !! i = Some row /\
          depreciation row !! "residential" = Some v /\
          (inject_Z (Z.of_nat i) < 27.5 ->
           v == basis c / 27.5
                + (if (i =? 0)%nat
                   then Js.or0 (section179 c) + Js.or0 (bonusDepreciation c)
                   else 0)) /\
          (27.5 <= inject_Z (Z.of_nat i) -> v == 0).
Proof.
  destruct (straight_line_schedule residentialStraight) as (res & Hres & Hcat).
  - discriminate.
  - exists res. split; [exact Hres|].
    apply (Hcat (mkCategory "residential" 27.5)); [in_list | reflexivity].
Defined.

(** ** Zero and negative total cost *)

Lemma entryBonus_fresh inp k :
  yearlyDepreciation (entryBonus inp k) = [] /\ cumulative (entryBonus inp k) = 0.
Proof.
  unfold entryBonus, entry179, afterBonus, after179, initSchedule.
  by destruct (isEligible k), (bonusApplies inp);
    try destruct (Js.gt (remainingBefore inp k) 0).
Qed.









(** ** The method switch *)

Lemma categoryStep_method inp m1 m2 yr st cat :
  m1 <> "macrs" -> m2 <> "macrs" ->
  categoryStep (withMethod inp m1) yr st cat
  = categoryStep (withMethod inp m2) yr st cat.
Proof.
  intros H1 H2. destruct st as [yd cs]. unfold categoryStep, yearDepreciationOf.
  cbn [depreciationMethod withMethod].
  destruct (Qeq_bool (cat_life cat) 0); [reflexivity|].
  destruct (cs !! cat_id cat) as [c|]; [|reflexivity].
  by rewrite !(periodicDepreciation_straight m1), !(periodicDepreciation_straight m2).
Qed.

Lemma yearStep_method inp m1 m2 st yr :
  m1 <> "macrs" -> m2 <> "macrs" ->
  yearStep (withMethod inp m1) st yr = yearStep (withMethod inp m2) st yr.
Proof.
  intros H1 H2. destruct st as [sched cs]. unfold yearStep.
  rewrite (forEach_ext (categoryStep (withMethod inp m1) yr)
                       (categoryStep (withMethod inp m2) yr));
    [reflexivity|].
  intros s x. by apply categoryStep_method.
Qed.

Lemma land_is_land cat :
  cat ∈ ASSET_CATEGORIES -> Qeq_bool (cat_life cat) 0 = true ->
  cat = mkCategory "land" 0.
Proof.
  unfold ASSET_CATEGORIES. intros Hcat E. revert E.
  repeat (apply elem_of_cons in Hcat as [-> | Hcat];
          [first [reflexivity | intros E; vm_compute in E; discriminate]|]).
  by apply elem_of_nil in Hcat.
Qed.

(** The rows of the schedule under a method other than ['macrs']. *)
Lemma straight_rows inp :
  depreciationMethod inp <> "macrs" ->
  exists res,
    scheduleData inp = Some res /\
    forall cat, cat ∈ ASSET_CATEGORIES ->
      exists c,
        categorySchedules res !! cat_id cat = Some c /\
        forall i, (i < 40)%nat ->
          exists row v,
            schedule res !! i = Some row /\
            depreciation row !! cat_id cat = Some v /\
            v == (if Js.lt (inject_Z (Z.of_nat i)) (cat_life cat)
                  then basis c / cat_life cat else 0)
                 + (if (i =? 0)%nat
                    then Js.or0 (section179 c) + Js.or0 (bonusDepreciation c)
                    else 0).
Proof.
  intros Hm.
  destruct (scheduleData_result inp) as (res & Hres & _ & Hrows & Hin & _).
  exists res. split; [exact Hres|]. intros cat Hcat.
  eexists. split; [exact (Hin cat Hcat)|]. intros i Hi.
  destruct (Hrows i Hi) as (row & Hrow & _ & _ & Hdep & _).
  exists row, (reported inp cat i). split; [exact Hrow|].
  split; [exact (Hdep cat Hcat)|].
  destruct (pushYears_core inp cat years (entryBonus inp (cat_id cat)))
    as (-> & -> & ->).
  unfold reported. destruct (Qeq_bool (cat_life cat) 0) eqn:E.
  - rewrite (land_is_land cat Hcat E). cbn [cat_life cat_id].
    rewrite (entryBonus_not_eligible inp "land") by reflexivity.
    cbn [initSchedule section179 bonusDepreciation basis]. rewrite or0_None.
    assert (H : Js.lt (inject_Z (Z.of_nat i)) 0 = false).
    { apply lt_false. unfold Qle. cbn. lia. }
    rewrite H. destruct (i =? 0)%nat; ring.
  - unfold yearDepreciationOf. rewrite !periodicDepreciation_straight by done.
    destruct (i =? 0)%nat eqn:Ei; [|ring].
    apply Nat.eqb_eq in Ei. subst i. reflexivity.
Qed.

(** C10. Only the test [depreciationMethod === 'macrs'] reads the method: any
    two values other than ['macrs'] (the select's ['straight'], the name
    ['straight-line'], anything else) give the same result on otherwise equal
    inputs, and that result is the straight-line schedule: for each of the
    six categories every row reports [basis / life] while [year < life] and
    0 afterwards, on the basis left by the two deduction loops, plus the
    Section 179 and bonus amounts in year 0. *)
Theorem method_other_than_macrs (inp : Inputs) (m1 m2 : string) :
  m1 <> "macrs" -> m2 <> "macrs" ->
  scheduleData (withMethod inp m1) = scheduleData (withMethod inp m2) /\
  scheduleData (withMethod inp m1) = scheduleData (withMethod inp "straight") /\
  (forall life basis yr,
     periodicDepreciation m1 life basis yr
     = if Js.lt (inject_Z (Z.of_nat yr)) life then basis / life else 0) /\
  exists res,
    scheduleData (withMethod inp m1) = Some res /\
    forall cat, cat ∈ ASSET_CATEGORIES ->
      exists c,
        categorySchedules res !! cat_id cat = Some c /\
        forall i, (i < 40)%nat ->
          exists row v,
            schedule res !! i = Some row /\
            depreciation row !! cat_id cat = Some v /\
            v == (if Js.lt (inject_Z (Z.of_nat i)) (cat_life cat)
                  then basis c / cat_life cat else 0)
                 + (if (i =? 0)%nat
                    then Js.or0 (section179 c) + Js.or0 (bonusDepreciation c)
                    else 0).
Proof.
  intros H1 H2.
  assert (Hsame : forall m m', m <> "macrs" -> m' <> "macrs" ->
            scheduleData (withMethod inp m) = scheduleData (withMethod inp m')).
  { intros m m' Hm Hm'. unfold scheduleData.
    change (allocateBasis (withMethod inp m)) with (allocateBasis (withMethod inp m')).
    change (applySection179 (withMethod inp m)) with (applySection179 (withMethod inp m')).
    destruct (applySection179 _ _) as [[r cs1]|]; [|reflexivity].
    change (applyBonus (withMethod inp m)) with (applyBonus (withMethod inp m')).
    destruct (applyBonus _ _) as [cs2|]; [|reflexivity].
    rewrite (forEach_ext (yearStep (withMethod inp m)) (yearStep (withMethod inp m')));
      [reflexivity|].
    intros s x. by apply yearStep_method. }
  split; [by apply Hsame|]. split; [by apply Hsame|].
  split; [intros life basis yr; by apply periodicDepreciation_straight|].
  by apply (straight_rows (withMethod inp m1)).
Qed.

Lemma method_other_than_macrs_witness :
  scheduleData (withMethod defaultInputs "straight")
  = scheduleData (withMethod defaultInputs "straight-line").
Proof.
  apply (method_other_than_macrs defaultInputs "straight" "straight-line");
    discriminate.
Defined.

(** ** Worked scenarios *)

(** The bonus rate comes from the table, and is 0 outside it. *)
Example bonusRate_table :
  bonusRate 2022 == 1 /\ bonusRate 2024 == 0.6 /\ bonusRate 2027 == 0 /\
  bonusRate 2021 == 0 /\ bonusRate 2030 == 0.
Proof. repeat split; vm_compute; reflexivity. Qed.

(** Cost 1,000,000 with the initial allocations, MACRS, bonus at the 2024
    rate and no Section 179: the 5-year category starts at 80,000, takes a
    bonus of 48,000, keeps 32,000, and reports 32,000 * 0.2 + 48,000 = 54,400
    in year 0. *)
Example scenario_bonus_2024 :
  exists res c row v,
    scheduleData defaultInputs = Some res /\
    categorySchedules res !! "5year" = Some c /\
    initialBasis defaultInputs "5year" == 80000 /\
    Js.or0 (bonusDepreciation c) == 48000 /\
    basis c == 32000 /\
    schedule res !! 0%nat = Some row /\
    depreciation row !! "5year" = Some v /\
    v == 54400.
Proof.
  destruct (scheduleData_result defaultInputs)
    as (res & Hres & _ & Hrows & Hin & _).
  destruct (Hrows 0%nat) as (row & Hrow & _ & _ & Hdep & _); [unfold years; lia|].
  eexists res, _, row, _. split; [exact Hres|].
  split; [apply (Hin (mkCategory "5year" 5)); in_list|].
  split; [vm_compute; reflexivity|].
  split; [vm_compute; reflexivity|].
  split; [vm_compute; reflexivity|].
  split; [exact Hrow|].
  split; [apply (Hdep (mkCategory "5year" 5)); in_list|].
  vm_compute; reflexivity.
Qed.

(** Straight-line, the whole cost 600,000 on the 39-year category: each of
    the years 0..38 reports 600,000 / 39 and year 39 reports 0. *)
Example scenario_commercial_straight :
  let inp := mkInputs (fun k => if String.eqb k "commercial" then 100 else 0)
                      600000 2024 true false 0 "straight" in
  let commercial := mkCategory "commercial" 39 in
  Forall (fun i => reported inp commercial i == 600000 / 39) (seq 0 39) /\
  reported inp commercial 39 == 0.
Proof.
  split; [|vm_compute; reflexivity].
  apply Forall_forall. intros i Hi.
  repeat (apply elem_of_cons in Hi as [-> | Hi]; [vm_compute; reflexivity|]).
  by apply elem_of_nil in Hi.
Qed.

(** * Further properties of the component *)

(** ** The allocation state *)

Lemma getProp_setProp_eq k v (o : list (string * Q)) :
  getProp k (setProp k v o) = Some v.
Proof.
  induction o as [|[k' v'] o IH]; cbn [setProp getProp].
  - by rewrite String.eqb_refl.
  - destruct (String.eqb k' k) eqn:E; cbn [getProp]; by rewrite E.
Qed.

Lemma getProp_setProp_ne k k' v (o : list (string * Q)) :
  k <> k' -> getProp k' (setProp k v o) = getProp k' o.
Proof.
  intros Hne. induction o as [|[k0 v0] o IH]; cbn [setProp getProp].
  - apply String.eqb_neq in Hne. by rewrite Hne.
  - destruct (String.eqb k0 k) eqn:E; cbn [getProp]; [|by rewrite IH].
    apply String.eqb_eq in E. subst k0.
    apply String.eqb_neq in Hne. by rewrite Hne.
Qed.

Lemma setProp_keys k v (o : list (string * Q)) :
  k ∈ map fst o -> map fst (setProp k v o) = map fst o.
Proof.
  induction o as [|[k0 v0] o IH]; cbn [setProp map fst]; intros H.
  - by apply elem_of_nil in H.
  - destruct (String.eqb k0 k) eqn:E; [reflexivity|].
    cbn [map fst]. f_equal. apply IH.
    apply elem_of_cons in H as [->|H]; [|done].
    by rewrite String.eqb_refl in E.
Qed.

Lemma setProp_values (P : Q -> Prop) k v (o : list (string * Q)) :
  P v -> Forall (fun kv => P (snd kv)) o ->
  Forall (fun kv => P (snd kv)) (setProp k v o).
Proof.
  intros Hv. induction 1 as [|[k0 v0] o H0 Ho IH]; cbn [setProp].
  - by repeat constructor.
  - destruct (String.eqb k0 k); by constructor.
Qed.

Lemma clamp_range (x : Q) :
  0 <= Math_max 0 (Js.Math_min 100 x) <= 100.
Proof.
  unfold Math_max, Js.Math_min.
  destruct (Q.max_spec 0 (Qmin 100 x)) as [[? E]|[? E]];
    destruct (Q.min_spec 100 x) as [[? E']|[? E']]; lra.
Qed.

Lemma clamp_inside (x : Q) :
  0 <= x <= 100 -> Math_max 0 (Js.Math_min 100 x) == x.
Proof.
  intros H. unfold Math_max, Js.Math_min.
  destruct (Q.max_spec 0 (Qmin 100 x)) as [[? E]|[? E]];
    destruct (Q.min_spec 100 x) as [[? E']|[? E']]; lra.
Qed.

(** X1. [updateAllocation] stores a percentage clamped to [0, 100] whatever
    was typed: the stored value is the parsed number when that lies in
    [0, 100], 0 when the text is not a number or the number is negative, and
    100 when it is above 100; the other properties of the state are left as
    they were. *)
Theorem updateAllocation_clamps (id : string) (parsed : option Q)
    (prev : list (string * Q)) :
  exists v,
    getProp id (updateAllocation id parsed prev) = Some v /\
    0 <= v <= 100 /\
    (forall x, parsed = Some x -> 0 <= x <= 100 -> v == x) /\
    (forall x, parsed = Some x -> x <= 0 -> v == 0) /\
    (forall x, parsed = Some x -> 100 <= x -> v == 100) /\
    (parsed = None -> v == 0) /\
    (forall k, k <> id ->
       getProp k (updateAllocation id parsed prev) = getProp k prev).
Proof.
  eexists. split; [apply getProp_setProp_eq|].
  split; [apply clamp_range|].
  unfold Math_max, Js.Math_min.
  assert (Hmax := Q.max_spec 0 (Qmin 100 (Js.or0 parsed))).
  assert (Hmin := Q.min_spec 100 (Js.or0 parsed)).
  repeat split.
  - intros x -> Hx. rewrite or0_Some in *. lra.
  - intros x -> Hx. rewrite or0_Some in *. lra.
  - intros x -> Hx. rewrite or0_Some in *. lra.
  - intros ->. rewrite or0_None in *. lra.
  - intros k Hk. apply getProp_setProp_ne. congruence.
Qed.

(** A state object whose keys are the six category ids, in order. *)
Lemma six_keys (o : list (string * Q)) :
  map fst o = map cat_id ASSET_CATEGORIES ->
  exists v0 v5 v7 v15 vr vc,
    o = [("land", v0); ("5year", v5); ("7year", v7); ("15year", v15);
         ("residential", vr); ("commercial", vc)].
Proof.
  cbn [map ASSET_CATEGORIES cat_id]. intros H.
  do 6 (destruct o as [|[? ?] o]; [discriminate|];
        cbn [map fst] in H; injection H as <- H).
  destruct o; [|discriminate]. by eexists _, _, _, _, _, _.
Qed.

Lemma updateAllocation_valid id parsed (o : list (string * Q)) :
  id ∈ map cat_id ASSET_CATEGORIES ->
  map fst o = map cat_id ASSET_CATEGORIES ->
  Forall (fun kv => 0 <= snd kv <= 100) o ->
  map fst (updateAllocation id parsed o) = map cat_id ASSET_CATEGORIES /\
  Forall (fun kv => 0 <= snd kv <= 100) (updateAllocation id parsed o).
Proof.
  intros Hid Hkeys Hval. unfold updateAllocation. split.
  - rewrite setProp_keys; [done|]. by rewrite Hkeys.
  - apply (setProp_values (fun v => 0 <= v <= 100)); [apply clamp_range|done].
Qed.

(** X2. Whatever sequence of [updateAllocation] calls on category ids is
    applied to the initial state, the state keeps exactly the six category
    keys in their order, every percentage stays within [0, 100], and
    [totalAllocation] stays within [0, 600]: the calls never bound the sum
    itself to 100. *)
Theorem allocations_stay_valid (steps : list (string * option Q)) :
  Forall (fun step => fst step ∈ map cat_id ASSET_CATEGORIES) steps ->
  map fst (afterUpdates steps initialAllocations) = map cat_id ASSET_CATEGORIES /\
  Forall (fun kv => 0 <= snd kv <= 100) (afterUpdates steps initialAllocations) /\
  0 <= totalAllocation (afterUpdates steps initialAllocations) <= 600.
Proof.
  intros Hsteps.
  assert (Hinv : forall o,
            map fst o = map cat_id ASSET_CATEGORIES ->
            Forall (fun kv => 0 <= snd kv <= 100) o ->
            map fst (afterUpdates steps o) = map cat_id ASSET_CATEGORIES /\
            Forall (fun kv => 0 <= snd kv <= 100) (afterUpdates steps o)).
  { induction Hsteps as [|[id parsed] steps Hid _ IH]; intros o Hk Hv; [done|].
    unfold afterUpdates. cbn [fold_left fst snd].
    destruct (updateAllocation_valid id parsed o Hid Hk Hv) as [Hk' Hv'].
    by apply IH. }
  destruct (Hinv initialAllocations) as [Hk Hv]; [reflexivity| |].
  { unfold initialAllocations.
    repeat (constructor; [cbn [snd]; unfold Qle; cbn; lia|]). constructor. }
  split; [exact Hk|]. split; [exact Hv|].
  destruct (six_keys _ Hk) as (v0 & v5 & v7 & v15 & vr & vc & E).
  rewrite E in Hv |- *. unfold totalAllocation. cbn [map snd fold_left].
  repeat match goal with
         | H : Forall _ (_ :: _) |- _ => apply Forall_cons in H as [? H]
         end.
  cbn [snd] in *. lra.
Qed.

Lemma allocations_stay_valid_witness :
  0 <= totalAllocation
         (afterUpdates [("land", Some 20); ("5year", None);
                        ("commercial", Some 250)] initialAllocations)
    <= 600.
Proof.
  apply (allocations_stay_valid
           [("land", Some 20); ("5year", None); ("commercial", Some 250)]).
  repeat (constructor; [cbn [fst map ASSET_CATEGORIES cat_id]; in_list|]).
  constructor.
Defined.

(** X3. In exact arithmetic: when the closure reads its allocations from a
    state object with the six category keys, the allocated bases add up to [totalCost] times
    [totalAllocation] over 100; so when the header's test
    [totalAllocation === 100] holds they add up to [totalCost], and the
    summary's [totalDepreciable] is the sum of the five non-land bases. *)
Theorem bases_follow_totalAllocation (inp : Inputs) (o : list (string * Q))
    (res : Result) :
  map fst o = map cat_id ASSET_CATEGORIES ->
  readsFrom inp o ->
  sumQ (map (fun cat => initialBasis inp (cat_id cat)) ASSET_CATEGORIES)
  == totalCost inp * totalAllocation o / 100 /\
  (totalAllocation o == 100 ->
   sumQ (map (fun cat => initialBasis inp (cat_id cat)) ASSET_CATEGORIES)
   == totalCost inp /\
   totalDepreciable (summaryStats inp res)
   == sumQ (map (initialBasis inp)
                ["5year"; "7year"; "15year"; "residential"; "commercial"])).
Proof.
  intros Hk Hread.
  destruct (six_keys _ Hk) as (v0 & v5 & v7 & v15 & vr & vc & ->).
  assert (H0 := Hread (mkCategory "land" 0) ltac:(in_list)).
  assert (H5 := Hread (mkCategory "5year" 5) ltac:(in_list)).
  assert (H7 := Hread (mkCategory "7year" 7) ltac:(in_list)).
  assert (H15 := Hread (mkCategory "15year" 15) ltac:(in_list)).
  assert (Hr := Hread (mkCategory "residential" 27.5) ltac:(in_list)).
  assert (Hc := Hread (mkCategory "commercial" 39) ltac:(in_list)).
  cbn in H0, H5, H7, H15, Hr, Hc.
  injection H0 as ->. injection H5 as ->. injection H7 as ->.
  injection H15 as ->. injection Hr as ->. injection Hc as ->.
  unfold totalAllocation, sumQ, initialBasis.
  cbn [map snd fold_left fold_right ASSET_CATEGORIES cat_id
       summaryStats totalDepreciable].
  split; [field|]. intros H100.
  assert (Hland : allocations inp "land"
                  == 100 - allocations inp "5year" - allocations inp "7year"
                     - allocations inp "15year" - allocations inp "residential"
                     - allocations inp "commercial") by lra.
  split; [|rewrite Hland; field].
  rewrite Hland. field.
Qed.

Lemma bases_follow_totalAllocation_witness :
  sumQ (map (fun cat => initialBasis defaultInputs (cat_id cat)) ASSET_CATEGORIES)
  == totalCost defaultInputs * totalAllocation initialAllocations / 100 /\
  (totalAllocation initialAllocations == 100 ->
   sumQ (map (fun cat => initialBasis defaultInputs (cat_id cat)) ASSET_CATEGORIES)
   == totalCost defaultInputs /\
   totalDepreciable (summaryStats defaultInputs (mkResult [] ∅))
   == sumQ (map (initialBasis defaultInputs)
                ["5year"; "7year"; "15year"; "residential"; "commercial"])).
Proof.
  apply (bases_follow_totalAllocation defaultInputs initialAllocations).
  - reflexivity.
  - unfold readsFrom, ASSET_CATEGORIES. intros cat H.
    repeat (apply elem_of_cons in H as [-> | H]; [reflexivity|]).
    by apply elem_of_nil in H.
Defined.

(** ** The bonus rate table *)

Lemma bonusRate_cases (y : Z) :
  (y = 2022%Z /\ bonusRate y == 1) \/
  (y = 2023%Z /\ bonusRate y == 0.8) \/
  (y = 2024%Z /\ bonusRate y == 0.6) \/
  (y = 2025%Z /\ bonusRate y == 0.4) \/
  (y = 2026%Z /\ bonusRate y == 0.2) \/
  ((y < 2022 \/ 2027 <= y)%Z /\ bonusRate y = 0).
Proof.
  destruct (decide (y = 2022%Z)) as [->|H22]; [left; by split|].
  destruct (decide (y = 2023%Z)) as [->|H23]; [right; left; by split|].
  destruct (decide (y = 2024%Z)) as [->|H24]; [do 2 right; left; by split|].
  destruct (decide (y = 2025%Z)) as [->|H25]; [do 3 right; left; by split|].
  destruct (decide (y = 2026%Z)) as [->|H26]; [do 4 right; left; by split|].
  do 5 right. split; [lia|].
  destruct (decide (y = 2027%Z)) as [->|H27]; [reflexivity|].
  unfold bonusRate, BONUS_RATES. cbn [list_to_map foldr fst snd uncurry].
  by rewrite !lookup_insert_ne, lookup_empty by done.
Qed.

(** X5. For every placed-in-service year the bonus rate lies in [0, 1]; it is
    0 for every year before 2022 and from 2027 on (the table's last entry is
    itself 0, and a year missing from the table reads as 0); and from 2022 on
    it never increases with the year. *)
Theorem bonusRate_bounds (y y' : Z) :
  0 <= bonusRate y <= 1 /\
  ((y < 2022 \/ 2027 <= y)%Z -> bonusRate y = 0) /\
  ((2022 <= y <= y')%Z -> bonusRate y' <= bonusRate y).
Proof.
  split; [|split].
  - destruct (bonusRate_cases y) as [[_ E]|[[_ E]|[[_ E]|[[_ E]|[[_ E]|[_ E]]]]]];
      rewrite E; split; unfold Qle; cbn; lia.
  - intros H.
    destruct (bonusRate_cases y) as [[? _]|[[? _]|[[? _]|[[? _]|[[? _]|[_ E]]]]]];
      [lia..|exact E].
  - intros H.
    destruct (bonusRate_cases y) as [[? E]|[[? E]|[[? E]|[[? E]|[[? E]|[? E]]]]]];
      destruct (bonusRate_cases y')
        as [[? E']|[[? E']|[[? E']|[[? E']|[[? E']|[? E']]]]]];
      try lia; rewrite E, E'; unfold Qle; cbn; lia.
Qed.

(** ** Signs of the amounts *)

Lemma initialBasis_nonneg inp k :
  0 <= totalCost inp -> 0 <= allocations inp k -> 0 <= initialBasis inp k.
Proof.
  intros Hc Ha. unfold initialBasis. apply Qmult_le_0_compat; [|exact Hc].
  unfold Qdiv. apply Qmult_le_0_compat; [exact Ha|]. unfold Qle. cbn. lia.
Qed.

Lemma entryBonus_nonneg inp k :
  0 <= initialBasis inp k ->
  0 <= basis (entryBonus inp k) /\
  0 <= Js.or0 (section179 (entryBonus inp k)) /\
  0 <= Js.or0 (bonusDepreciation (entryBonus inp k)).
Proof.
  destruct (bonusRate_bounds (purchaseYear inp) 0) as [[Hr0 Hr1] _].
  unfold entryBonus, entry179, afterBonus, after179, initSchedule, Js.Math_min.
  generalize (initialBasis inp k) as b. intros b Hb.
  assert (Hmul : forall x, 0 <= x ->
            0 <= x * bonusRate (purchaseYear inp) /\
            0 <= x - x * bonusRate (purchaseYear inp)).
  { intros x Hx. split; [by apply Qmult_le_0_compat|].
    assert (E : x - x * bonusRate (purchaseYear inp)
                == x * (1 - bonusRate (purchaseYear inp))) by ring.
    rewrite E. apply Qmult_le_0_compat; lra. }
  destruct (isEligible k), (bonusApplies inp);
    try destruct (Js.gt (remainingBefore inp k) 0) eqn:E;
    cbn [basis section179 bonusDepreciation];
    rewrite ?or0_Some, ?or0_None;
    try (apply gt_true in E;
         assert (Hm := Q.min_spec (remainingBefore inp k) b);
         assert (Hd : 0 <= b - Qmin (remainingBefore inp k) b) by lra;
         destruct (Hmul _ Hd));
    try destruct (Hmul _ Hb);
    repeat split; lra.
Qed.

Lemma macrs_rates_nonneg life rates :
  macrs_lookup MACRS_RATES life = Some rates -> Forall (fun r => 0 <= r) rates.
Proof.
  unfold MACRS_RATES. cbn [macrs_lookup].
  repeat (destruct (Qeq_bool _ life);
          [intros [= <-]; apply Forall_forall; intros r Hr; cbv in Hr;
           repeat (apply elem_of_cons in Hr as [-> | Hr];
                   [unfold Qle; cbn; lia|]);
           by apply elem_of_nil in Hr|]).
  discriminate.
Qed.

Lemma periodicDepreciation_nonneg method life b yr :
  0 <= b -> 0 <= periodicDepreciation method life b yr.
Proof.
  intros Hb. unfold periodicDepreciation.
  destruct (String.eqb method "macrs").
  - destruct (macrs_lookup MACRS_RATES life) as [rates|] eqn:E; [|lra].
    destruct (yr <? length rates)%nat; [|lra].
    apply Qmult_le_0_compat; [exact Hb|].
    destruct (nth_in_or_default yr rates 0) as [Hin | ->]; [|lra].
    apply macrs_rates_nonneg in E.
    by apply (proj1 (Forall_forall _ _) E), list_elem_of_In.
  - destruct (Js.lt (inject_Z (Z.of_nat yr)) life) eqn:E; [|lra].
    apply lt_true in E.
    assert (0 <= inject_Z (Z.of_nat yr)) by (unfold Qle; cbn; lia).
    apply Qle_shift_div_l; lra.
Qed.

Lemma reported_nonneg inp cat i :
  0 <= initialBasis inp (cat_id cat) -> 0 <= reported inp cat i.
Proof.
  intros H. destruct (entryBonus_nonneg inp (cat_id cat) H) as (Hb & Hs & Hbo).
  unfold reported, yearDepreciationOf.
  destruct (Qeq_bool (cat_life cat) 0); [lra|].
  assert (Hp := periodicDepreciation_nonneg (depreciationMethod inp)
                  (cat_life cat) _ i Hb).
  destruct (i =? 0)%nat; lra.
Qed.

Lemma fold_left_Qplus_nonneg (vs : list Q) (a : Q) :
  Forall (fun v => 0 <= v) vs -> 0 <= a -> 0 <= fold_left Qplus vs a.
Proof.
  intros H. revert a. induction H as [|v vs Hv _ IH]; intros a Ha; [exact Ha|].
  cbn [fold_left]. apply IH. lra.
Qed.

Lemma sumQ_nonneg (vs : list Q) : Forall (fun v => 0 <= v) vs -> 0 <= sumQ vs.
Proof.
  induction 1 as [|v vs Hv _ IH]; [apply Qle_refl|].
  unfold sumQ in *. cbn [fold_right]. lra.
Qed.

Lemma nonneg_result inp res :
  scheduleData inp = Some res ->
  (forall cat, cat ∈ ASSET_CATEGORIES -> 0 <= initialBasis inp (cat_id cat)) ->
  allNonneg res.
Proof.
  intros Hres' Hb.
  destruct (scheduleData_result inp) as (res0 & Hres & Hlen & Hrows & Hin & Hout).
  assert (res0 = res) by congruence. subst res0.
  assert (Hrep : forall cat i, cat ∈ ASSET_CATEGORIES -> 0 <= reported inp cat i).
  { intros cat i Hcat. apply reported_nonneg, Hb, Hcat. }
  split.
  - intros k c Hk.
    destruct (decide (k ∈ map cat_id ASSET_CATEGORIES)) as [Hk'|Hk'];
      [|by rewrite (Hout k Hk') in Hk].
    apply list_elem_of_fmap in Hk' as (cat & -> & Hcat).
    rewrite (Hin cat Hcat) in Hk. injection Hk as <-.
    destruct (pushYears_core inp cat years (entryBonus inp (cat_id cat)))
      as (-> & -> & ->).
    destruct (entryBonus_nonneg inp (cat_id cat) (Hb cat Hcat)) as (H1 & H2 & H3).
    destruct (entryBonus_fresh inp (cat_id cat)) as (Hy & Hc).
    do 3 (split; [assumption|]).
    unfold pushYears. destruct (Qeq_bool (cat_life cat) 0) eqn:E.
    + rewrite Hy, Hc. split; [constructor | apply Qle_refl].
    + cbn [yearlyDepreciation cumulative]. rewrite Hy, Hc.
      assert (Hvs : Forall (fun v => 0 <= v)
                      (map (yearDepreciationOf (depreciationMethod inp)
                              (cat_life cat) (entryBonus inp (cat_id cat)))
                           (seq 0 years))).
      { apply Forall_fmap, Forall_forall. intros i _. cbn.
        specialize (Hrep cat i Hcat). unfold reported in Hrep.
        by rewrite E in Hrep. }
      split; [exact Hvs|]. apply fold_left_Qplus_nonneg; [exact Hvs|apply Qle_refl].
  - intros row Hrow. apply list_elem_of_lookup in Hrow as (i & Hi).
    assert (Hlt : (i < years)%nat).
    { rewrite <- Hlen. by apply lookup_lt_Some with row. }
    destruct (Hrows i Hlt) as (row' & Hrow' & _ & Hdom & Hdep & Htot).
    assert (row' = row) by congruence. subst row'. split.
    + rewrite Htot. apply sumQ_nonneg, Forall_fmap, Forall_forall.
      intros cat Hcat. by apply Hrep.
    + intros k v Hk.
      assert (Hk' : k ∈ dom (depreciation row)) by (apply elem_of_dom; by eexists).
      rewrite Hdom in Hk'. apply elem_of_list_to_set in Hk'.
      apply list_elem_of_fmap in Hk' as (cat & -> & Hcat).
      rewrite (Hdep cat Hcat) in Hk. injection Hk as <-. by apply Hrep.
Qed.

(** X4. For a non-negative total cost and non-negative allocations, no amount
    of the result is negative, whatever the elections, the requested Section
    179 amount (also a negative or an excessive one), the year and the method:
    every remaining basis, Section 179 amount, bonus amount, yearly
    depreciation, cumulative figure, per-category amount and row total is
    [>= 0].  In particular the deductions never take a basis below zero. *)
Theorem amounts_nonnegative (inp : Inputs) :
  0 <= totalCost inp ->
  (forall cat, cat ∈ ASSET_CATEGORIES -> 0 <= allocations inp (cat_id cat)) ->
  exists res, scheduleData inp = Some res /\ allNonneg res.
Proof.
  intros Hc Ha.
  destruct (scheduleData_result inp) as (res & Hres & _).
  exists res. split; [exact Hres|]. apply (nonneg_result inp res Hres).
  intros cat Hcat. apply initialBasis_nonneg; [exact Hc|by apply Ha].
Qed.

Lemma defaultAllocations_nonneg cat :
  cat ∈ ASSET_CATEGORIES -> 0 <= defaultAllocations (cat_id cat).
Proof.
  unfold ASSET_CATEGORIES. intros H.
  repeat (apply elem_of_cons in H as [-> | H]; [vm_compute; discriminate|]).
  by apply elem_of_nil in H.
Defined.

Lemma amounts_nonnegative_witness :
  exists res, scheduleData (electing179 (-500)) = Some res /\ allNonneg res.
Proof.
  apply (amounts_nonnegative (electing179 (-500))).
  - unfold Qle. cbn. lia.
  - exact defaultAllocations_nonneg.
Defined.

(** ** The summary figures *)

Lemma fold_totals_ge (l : list YearData) (a : Q) :
  Forall (fun y => 0 <= totalDepreciation y) l ->
  a <= fold_left (fun sum y => sum + totalDepreciation y) l a.
Proof.
  intros H. revert a. induction H as [|y l Hy _ IH]; intros a; [apply Qle_refl|].
  cbn [fold_left]. specialize (IH (a + totalDepreciation y)). lra.
Qed.

Lemma sumTotals_mono (sched : list YearData) (n m : nat) :
  Forall (fun y => 0 <= totalDepreciation y) sched ->
  (n <= m)%nat -> sumTotals n sched <= sumTotals m sched.
Proof.
  intros H Hnm. unfold sumTotals.
  rewrite <- (take_drop n (take m sched)), take_take, fold_left_app.
  replace (n `min` m)%nat with n by lia.
  apply fold_totals_ge. by apply Forall_drop, Forall_take.
Qed.

Lemma firstYearTotal_sumTotals inp res :
  firstYearTotal (summaryStats inp res) == sumTotals 1 (schedule res).
Proof.
  unfold summaryStats, sumTotals. cbn [firstYearTotal].
  destruct (schedule res) as [|row sched]; [reflexivity|].
  change (Js.or0 (Some (totalDepreciation row)) == 0 + totalDepreciation row).
  rewrite or0_Some. ring.
Qed.

(** X6. For a non-negative total cost and non-negative allocations, the
    summary figures are ordered: 0 <= first-year total <= 5-year total <=
    10-year total <= the running total of the last table row, and the running
    total shown in the table never decreases from one row to the next. *)
Theorem summary_ordered (inp : Inputs) :
  0 <= totalCost inp ->
  (forall cat, cat ∈ ASSET_CATEGORIES -> 0 <= allocations inp (cat_id cat)) ->
  exists res,
    scheduleData inp = Some res /\
    0 <= firstYearTotal (summaryStats inp res) /\
    firstYearTotal (summaryStats inp res) <= fiveYearTotal (summaryStats inp res) /\
    fiveYearTotal (summaryStats inp res) <= tenYearTotal (summaryStats inp res) /\
    tenYearTotal (summaryStats inp res) <= cumulativeAt res 39 /\
    (forall i j, (i <= j)%nat -> cumulativeAt res i <= cumulativeAt res j).
Proof.
  intros Hc Ha.
  destruct (scheduleData_result inp) as (res & Hres & _).
  exists res. split; [exact Hres|].
  assert (Hnn : Forall (fun y => 0 <= totalDepreciation y) (schedule res)).
  { destruct (nonneg_result inp res Hres) as [_ Hrows].
    - intros cat Hcat. apply initialBasis_nonneg; [exact Hc|by apply Ha].
    - apply Forall_forall. intros row Hrow. by apply Hrows. }
  rewrite firstYearTotal_sumTotals. cbn [summaryStats fiveYearTotal tenYearTotal].
  unfold cumulativeAt.
  split; [apply (sumTotals_mono _ 0 1 Hnn); lia|].
  split; [apply sumTotals_mono; [done|lia]|].
  split; [apply sumTotals_mono; [done|lia]|].
  split; [apply sumTotals_mono; [done|lia]|].
  intros i j Hij. apply sumTotals_mono; [done|lia].
Qed.

Lemma summary_ordered_witness :
  exists res,
    scheduleData defaultInputs = Some res /\
    0 <= firstYearTotal (summaryStats defaultInputs res) /\
    firstYearTotal (summaryStats defaultInputs res)
    <= fiveYearTotal (summaryStats defaultInputs res) /\
    fiveYearTotal (summaryStats defaultInputs res)
    <= tenYearTotal (summaryStats defaultInputs res) /\
    tenYearTotal (summaryStats defaultInputs res) <= cumulativeAt res 39 /\
    (forall i j, (i <= j)%nat -> cumulativeAt res i <= cumulativeAt res j).
Proof.
  apply (summary_ordered defaultInputs).
  - unfold Qle. cbn. lia.
  - exact defaultAllocations_nonneg.
Defined.

(** ** Recovery of the basis over the horizon *)

Lemma periodicDepreciation_linear method life b yr :
  periodicDepreciation method life b yr
  == b * periodicDepreciation method life 1 yr.
Proof.
  unfold periodicDepreciation.
  destruct (String.eqb method "macrs").
  - destruct (macrs_lookup MACRS_RATES life); [|ring].
    destruct (yr <? length l)%nat; ring.
  - destruct (Js.lt (inject_Z (Z.of_nat yr)) life); unfold Qdiv; ring.
Qed.

Lemma fold_left_Qplus_sumQ (vs : list Q) (a : Q) :
  fold_left Qplus vs a == a + sumQ vs.
Proof.
  revert a. induction vs as [|v vs IH]; intros a; unfold sumQ in *;
    cbn [fold_left fold_right]; [ring|].
  rewrite IH. ring.
Qed.

Lemma sumQ_later_years method life c (l : list nat) :
  Forall (fun i => i <> 0%nat) l ->
  sumQ (map (yearDepreciationOf method life c) l)
  == basis c * sumQ (map (periodicDepreciation method life 1) l).
Proof.
  induction 1 as [|i l Hi _ IH]; unfold sumQ in *; cbn [map fold_right]; [ring|].
  rewrite IH. unfold yearDepreciationOf.
  apply Nat.eqb_neq in Hi. rewrite Hi.
  rewrite (periodicDepreciation_linear method life (basis c) i). ring.
Qed.

Lemma sumQ_all_years method life c :
  sumQ (map (yearDepreciationOf method life c) (seq 0 years))
  == Js.or0 (section179 c) + Js.or0 (bonusDepreciation c)
     + basis c * recoveryFraction method life.
Proof.
  unfold recoveryFraction.
  change (seq 0 years) with (0%nat :: seq 1 39).
  assert (H : Forall (fun i => i <> 0%nat) (seq 1 39)).
  { apply Forall_forall. intros i Hi. apply elem_of_seq in Hi. lia. }
  pose proof (sumQ_later_years method life c _ H) as E.
  unfold sumQ in *. cbn [map fold_right]. rewrite E.
  unfold yearDepreciationOf. cbn [Nat.eqb].
  rewrite (periodicDepreciation_linear method life (basis c) 0). ring.
Qed.

(** The cumulative figure of every depreciable category, for every input. *)
Lemma cumulative_formula inp :
  exists res,
    scheduleData inp = Some res /\
    forall cat, cat ∈ ASSET_CATEGORIES ->
      exists c,
        categorySchedules res !! cat_id cat = Some c /\
        (Qeq_bool (cat_life cat) 0 = true -> cumulative c = 0) /\
        (Qeq_bool (cat_life cat) 0 = false ->
         cumulative c
         == Js.or0 (section179 c) + Js.or0 (bonusDepreciation c)
            + basis c * recoveryFraction (depreciationMethod inp) (cat_life cat)) /\
        Js.or0 (section179 c) + Js.or0 (bonusDepreciation c) + basis c
        == initialBasis inp (cat_id cat) /\
        (isEligible (cat_id cat) = false -> basis c = initialBasis inp (cat_id cat)).
Proof.
  destruct (scheduleData_result inp) as (res & Hres & _ & _ & Hin & _).
  exists res. split; [exact Hres|]. intros cat Hcat.
  eexists. split; [exact (Hin cat Hcat)|].
  destruct (pushYears_core inp cat years (entryBonus inp (cat_id cat)))
    as (Eb & Es & Ebo).
  destruct (entryBonus_fresh inp (cat_id cat)) as (Hy & Hc).
  split; [|split; [|split]].
  - intros E. unfold pushYears. by rewrite E.
  - intros E. rewrite Eb, Es, Ebo. unfold pushYears. rewrite E.
    cbn [cumulative]. rewrite fold_left_Qplus_sumQ, Hc, sumQ_all_years. ring.
  - rewrite Eb, Es, Ebo. apply entryBonus_conserved.
  - intros E. rewrite Eb. by rewrite entryBonus_not_eligible.
Qed.

Lemma recoveryFraction_macrs :
  recoveryFraction "macrs" 5 == 1 /\
  recoveryFraction "macrs" 7 == 1 /\
  recoveryFraction "macrs" 15 == 1 /\
  recoveryFraction "macrs" 27.5 == 0.99687 /\
  recoveryFraction "macrs" 39 == 1.
Proof. repeat split; vm_compute; reflexivity. Qed.

Lemma recoveryFraction_straight method :
  method <> "macrs" ->
  recoveryFraction method 5 == 1 /\
  recoveryFraction method 7 == 1 /\
  recoveryFraction method 15 == 1 /\
  recoveryFraction method 27.5 == 56 # 55 /\
  recoveryFraction method 39 == 1.
Proof.
  intros H.
  assert (E : forall life,
            recoveryFraction method life = recoveryFraction "straight" life).
  { intros life. unfold recoveryFraction. f_equal. apply map_ext. intros i.
    by rewrite !periodicDepreciation_straight. }
  rewrite !E. repeat split; vm_compute; reflexivity.
Qed.

Lemma recovery_by_fraction inp (fr : Q) :
  recoveryFraction (depreciationMethod inp) 5 == 1 /\
  recoveryFraction (depreciationMethod inp) 7 == 1 /\
  recoveryFraction (depreciationMethod inp) 15 == 1 /\
  recoveryFraction (depreciationMethod inp) 27.5 == fr /\
  recoveryFraction (depreciationMethod inp) 39 == 1 ->
  exists res,
    scheduleData inp = Some res /\
    (forall k, k ∈ ["5year"; "7year"; "15year"; "commercial"] ->
       exists c,
         categorySchedules res !! k = Some c /\
         cumulative c == initialBasis inp k) /\
    (exists c,
       categorySchedules res !! "residential" = Some c /\
       cumulative c == fr * initialBasis inp "residential") /\
    (exists c,
       categorySchedules res !! "land" = Some c /\ cumulative c = 0).
Proof.
  intros (F5 & F7 & F15 & Fr & Fc).
  destruct (cumulative_formula inp) as (res & Hres & Hcat).
  exists res. split; [exact Hres|]. split; [|split].
  - assert (Hone : forall cat, cat ∈ ASSET_CATEGORIES ->
               Qeq_bool (cat_life cat) 0 = false ->
               recoveryFraction (depreciationMethod inp) (cat_life cat) == 1 ->
               exists c,
                 categorySchedules res !! cat_id cat = Some c /\
                 cumulative c == initialBasis inp (cat_id cat)).
    { intros cat Hin Hlife Hfrac.
      destruct (Hcat cat Hin) as (c & Hc & _ & Hcum & Hcons & _).
      exists c. split; [exact Hc|].
      rewrite (Hcum Hlife), Hfrac, <- Hcons. lra. }
    intros k Hk.
    apply elem_of_cons in Hk as [-> | Hk];
      [by apply (Hone (mkCategory "5year" 5)); [in_list| |]|].
    apply elem_of_cons in Hk as [-> | Hk];
      [by apply (Hone (mkCategory "7year" 7)); [in_list| |]|].
    apply elem_of_cons in Hk as [-> | Hk];
      [by apply (Hone (mkCategory "15year" 15)); [in_list| |]|].
    apply elem_of_cons in Hk as [-> | Hk];
      [by apply (Hone (mkCategory "commercial" 39)); [in_list| |]|].
    by apply elem_of_nil in Hk.
  - destruct (Hcat (mkCategory "residential" 27.5) ltac:(in_list))
      as (c & Hc & _ & Hcum & Hcons & Hbasis).
    exists c. split; [exact Hc|].
    rewrite (Hcum eq_refl). cbn [cat_life cat_id] in *.
    rewrite (Hbasis eq_refl) in Hcons |- *.
    assert (Hsb : Js.or0 (section179 c) + Js.or0 (bonusDepreciation c) == 0)
      by lra.
    rewrite Fr, Hsb. ring.
  - destruct (Hcat (mkCategory "land" 0) ltac:(in_list))
      as (c & Hc & Hzero & _).
    exists c. split; [exact Hc|]. by apply Hzero.
Qed.

(** X7. Under MACRS, for every input, the cumulative depreciation that the
    40 years give a category equals its allocated basis exactly for 5year,
    7year, 15year and commercial (Section 179 and bonus included), but only
    0.99687 of it for residential, whose table does not add up to 1; land
    accumulates nothing. *)
Theorem macrs_recovery (inp : Inputs) :
  depreciationMethod inp = "macrs" ->
  exists res,
    scheduleData inp = Some res /\
    (forall k, k ∈ ["5year"; "7year"; "15year"; "commercial"] ->
       exists c,
         categorySchedules res !! k = Some c /\
         cumulative c == initialBasis inp k) /\
    (exists c,
       categorySchedules res !! "residential" = Some c /\
       cumulative c == 0.99687 * initialBasis inp "residential") /\
    (exists c,
       categorySchedules res !! "land" = Some c /\ cumulative c = 0).
Proof.
  intros Hm. apply (recovery_by_fraction inp 0.99687).
  rewrite Hm. apply recoveryFraction_macrs.
Qed.

Lemma macrs_recovery_witness :
  exists res,
    scheduleData (electing179 100000) = Some res /\
    exists c,
      categorySchedules res !! "7year" = Some c /\
      cumulative c == initialBasis (electing179 100000) "7year".
Proof.
  destruct (macrs_recovery (electing179 100000) eq_refl)
    as (res & Hres & Hall & _).
  exists res. split; [exact Hres|]. apply Hall. in_list.
Defined.

(** X8. In exact arithmetic: under the straight-line method (any method
    other than ['macrs']), for every input, the cumulative depreciation equals the allocated basis
    exactly for 5year, 7year, 15year and commercial, but is 56/55 of it for
    residential: the test [year < 27.5] lets 28 years each take 1/27.5 of the
    basis, so that category is depreciated beyond its basis. *)
Theorem straight_line_recovery (inp : Inputs) :
  depreciationMethod inp <> "macrs" ->
  exists res,
    scheduleData inp = Some res /\
    (forall k, k ∈ ["5year"; "7year"; "15year"; "commercial"] ->
       exists c,
         categorySchedules res !! k = Some c /\
         cumulative c == initialBasis inp k) /\
    (exists c,
       categorySchedules res !! "residential" = Some c /\
       cumulative c == (56 # 55) * initialBasis inp "residential") /\
    (exists c,
       categorySchedules res !! "land" = Some c /\ cumulative c = 0).
Proof.
  intros Hm. apply (recovery_by_fraction inp (56 # 55)).
  by apply recoveryFraction_straight.
Qed.

Lemma straight_line_recovery_witness :
  exists res c,
    scheduleData residentialStraight = Some res /\
    categorySchedules res !! "residential" = Some c /\
    cumulative c == 280.
Proof.
  destruct (straight_line_recovery residentialStraight)
    as (res & Hres & _ & (c & Hc & Hcum) & _).
  - discriminate.
  - exists res, c. split; [exact Hres|]. split; [exact Hc|].
    rewrite Hcum. vm_compute. reflexivity.
Defined.

(** ** Rows against categories *)

Lemma fold_totals_sumQ (l : list YearData) (a : Q) :
  fold_left (fun sum y => sum + totalDepreciation y) l a
  == a + sumQ (map totalDepreciation l).
Proof.
  revert a. induction l as [|y l IH]; intros a; unfold sumQ in *;
    cbn [fold_left map fold_right]; [ring|].
  rewrite IH. ring.
Qed.

Lemma sumQ_map_ext {A : Type} (f g : A -> Q) (l : list A) :
  (forall x, x ∈ l -> f x == g x) -> sumQ (map f l) == sumQ (map g l).
Proof.
  induction l as [|x l IH]; intros H; unfold sumQ in *; cbn [map fold_right];
    [reflexivity|].
  rewrite (H x) by left. rewrite IH; [reflexivity|].
  intros y Hy. apply H. by right.
Qed.

Lemma sumQ_map_plus {A : Type} (f g : A -> Q) (l : list A) :
  sumQ (map (fun x => f x + g x) l) == sumQ (map f l) + sumQ (map g l).
Proof.
  induction l as [|x l IH]; unfold sumQ in *; cbn [map fold_right]; [ring|].
  rewrite IH. ring.
Qed.

Lemma sumQ_map_zero {A : Type} (l : list A) : sumQ (map (fun _ => 0) l) == 0.
Proof.
  induction l as [|x l IH]; unfold sumQ in *; cbn [map fold_right];
    [reflexivity|].
  rewrite IH. ring.
Qed.

Lemma sumQ_swap {A B : Type} (f : A -> B -> Q) (la : list A) (lb : list B) :
  sumQ (map (fun b => sumQ (map (fun a => f a b) la)) lb)
  == sumQ (map (fun a => sumQ (map (fun b => f a b) lb)) la).
Proof.
  induction lb as [|b lb IH].
  - cbn [map]. rewrite sumQ_map_zero. reflexivity.
  - cbn [map]. unfold sumQ at 1. cbn [fold_right]. fold (sumQ (map (fun b0 => sumQ (map (fun a => f a b0) la)) lb)).
    rewrite IH.
    rewrite <- sumQ_map_plus. apply sumQ_map_ext. intros a _.
    unfold sumQ. cbn [fold_right]. reflexivity.
Qed.

Lemma reported_yearDepreciationOf inp cat i :
  Qeq_bool (cat_life cat) 0 = false ->
  reported inp cat i
  = yearDepreciationOf (depreciationMethod inp) (cat_life cat)
                       (entryBonus inp (cat_id cat)) i.
Proof. intros E. unfold reported. by rewrite E. Qed.

Lemma cumulative_sum_reported inp cat :
  cumulative (pushYears inp cat years (entryBonus inp (cat_id cat)))
  == sumQ (map (reported inp cat) (seq 0 years)).
Proof.
  destruct (entryBonus_fresh inp (cat_id cat)) as (_ & Hc).
  unfold pushYears, reported. destruct (Qeq_bool (cat_life cat) 0).
  - rewrite Hc, sumQ_map_zero. reflexivity.
  - cbn [cumulative]. rewrite fold_left_Qplus_sumQ, Hc. apply Qplus_0_l.
Qed.

Lemma last_running_total inp res :
  scheduleData inp = Some res ->
  (forall cat, cat ∈ ASSET_CATEGORIES ->
     categorySchedules res !! cat_id cat
     = Some (pushYears inp cat years (entryBonus inp (cat_id cat)))) /\
  sumQ (map totalDepreciation (schedule res))
  == sumQ (map (fun cat =>
                  cumulative (pushYears inp cat years
                                (entryBonus inp (cat_id cat))))
               ASSET_CATEGORIES) /\
  cumulativeAt res 39 == sumQ (map totalDepreciation (schedule res)).
Proof.
  intros H.
  destruct (scheduleData_eq inp)
    as (cs1 & cs2 & cs3 & _ & _ & Hres & _ & Hin2 & Hin3 & _).
  assert (E : res = mkResult (map (rowOf inp cs2) (seq 0 years)) cs3)
    by congruence.
  subst res. cbn [schedule categorySchedules].
  split; [exact Hin3|]. split.
  - rewrite map_map.
    rewrite (sumQ_map_ext _
               (fun i => sumQ (map (fun cat => reported inp cat i) ASSET_CATEGORIES))).
    + rewrite (sumQ_swap (fun cat i => reported inp cat i)).
      apply sumQ_map_ext. intros cat _. symmetry. apply cumulative_sum_reported.
    + intros i _. rewrite rowOf_total. apply sumQ_map_ext. intros cat Hcat.
      by rewrite (amountOf_reported _ _ _ _ (Hin2 cat Hcat)).
  - unfold cumulativeAt, sumTotals. cbn [schedule].
    rewrite take_ge by (rewrite length_map, length_seq; unfold years; lia).
    rewrite fold_totals_sumQ. apply Qplus_0_l.
Qed.

(** X9. In exact arithmetic, summing by rows or by categories gives the
    same figure: the running
    total of the last table row (which is the sum of all 40 row totals) equals
    the sum over the six categories of their [cumulative] fields. *)
Theorem rows_agree_with_categories (inp : Inputs) :
  exists res cums,
    scheduleData inp = Some res /\
    mapM (fun cat => cumulative <$> categorySchedules res !! cat_id cat)
         ASSET_CATEGORIES = Some cums /\
    cumulativeAt res 39 == sumQ cums /\
    sumQ (map totalDepreciation (schedule res)) == sumQ cums.
Proof.
  destruct (scheduleData_result inp) as (res & Hres & _).
  destruct (last_running_total inp res Hres) as (Hin & Hsum & Hlast).
  eexists res, _. split; [exact Hres|]. split.
  { apply (mapM_lookup_all
             (fun cat => cumulative <$> categorySchedules res !! cat_id cat)
             (fun cat => cumulative
                           (pushYears inp cat years (entryBonus inp (cat_id cat))))).
    intros cat Hcat. by rewrite (Hin cat Hcat). }
  split; [by rewrite Hlast|exact Hsum].
Qed.

(** X10. Each depreciable category's [yearlyDepreciation] array has exactly
    40 entries, entry [i] being the amount row [i] reports for the category,
    and its [cumulative] field is the sum of the array; land's array stays
    empty and its [cumulative] stays 0 although every row reports an amount
    (0) for it. *)
Theorem yearly_arrays_mirror_rows (inp : Inputs) :
  exists res,
    scheduleData inp = Some res /\
    forall cat, cat ∈ ASSET_CATEGORIES ->
      exists c,
        categorySchedules res !! cat_id cat = Some c /\
        cumulative c == sumQ (yearlyDepreciation c) /\
        (Qeq_bool (cat_life cat) 0 = true ->
         yearlyDepreciation c = [] /\ cumulative c = 0 /\
         forall i, (i < 40)%nat ->
           exists row,
             schedule res !! i = Some row /\
             depreciation row !! cat_id cat = Some 0) /\
        (Qeq_bool (cat_life cat) 0 = false ->
         length (yearlyDepreciation c) = 40%nat /\
         forall i, (i < 40)%nat ->
           exists row,
             schedule res !! i = Some row /\
             is_Some (yearlyDepreciation c !! i) /\
             depreciation row !! cat_id cat = yearlyDepreciation c !! i).
Proof.
  destruct (scheduleData_result inp) as (res & Hres & _ & Hrows & Hin & _).
  exists res. split; [exact Hres|]. intros cat Hcat.
  eexists. split; [exact (Hin cat Hcat)|].
  destruct (entryBonus_fresh inp (cat_id cat)) as (Hy & Hc).
  unfold pushYears. destruct (Qeq_bool (cat_life cat) 0) eqn:E.
  - rewrite Hy, Hc. split; [reflexivity|]. split; [|by intros [=]].
    intros _. do 2 (split; [reflexivity|]). intros i Hi.
    destruct (Hrows i Hi) as (row & Hrow & _ & _ & Hdep & _).
    exists row. split; [exact Hrow|]. rewrite (Hdep cat Hcat).
    unfold reported. by rewrite E.
  - cbn [yearlyDepreciation cumulative]. rewrite Hy, Hc. cbn [app].
    split; [rewrite fold_left_Qplus_sumQ; ring|]. split; [by intros [=]|].
    intros _. split; [by rewrite length_map, length_seq|]. intros i Hi.
    destruct (Hrows i Hi) as (row & Hrow & _ & _ & Hdep & _).
    exists row. split; [exact Hrow|].
    rewrite (Hdep cat Hcat), list_lookup_fmap, lookup_seq_lt by exact Hi.
    cbn. split; [by eexists|]. by rewrite reported_yearDepreciationOf.
Qed.

(** ** More on Section 179 *)

Lemma entryBonus_section179 inp k :
  section179 (entryBonus inp k) = section179 (entry179 inp k).
Proof.
  unfold entryBonus, afterBonus.
  by destruct (isEligible k), (bonusApplies inp).
Qed.

Lemma entryBonus_basis_zero inp k :
  basis (entry179 inp k) == 0 -> basis (entryBonus inp k) == 0.
Proof.
  intros H. unfold entryBonus, afterBonus.
  destruct (isEligible k), (bonusApplies inp); cbn [basis]; rewrite ?H; ring.
Qed.

Lemma result_entry inp :
  exists res,
    scheduleData inp = Some res /\
    forall cat, cat ∈ ASSET_CATEGORIES ->
      exists c,
        categorySchedules res !! cat_id cat = Some c /\
        basis c = basis (entryBonus inp (cat_id cat)) /\
        section179 c = section179 (entry179 inp (cat_id cat)) /\
        bonusDepreciation c = bonusDepreciation (entryBonus inp (cat_id cat)).
Proof.
  destruct (scheduleData_result inp) as (res & Hres & _ & _ & Hin & _).
  exists res. split; [exact Hres|]. intros cat Hcat.
  eexists. split; [exact (Hin cat Hcat)|].
  destruct (pushYears_core inp cat years (entryBonus inp (cat_id cat)))
    as (-> & -> & ->).
  by rewrite entryBonus_section179.
Qed.

(** X12. In exact arithmetic: with Section 179 elected for a non-negative
    amount and non-negative allocated bases, the amounts recorded for 5year, 7year and 15year add up
    to exactly the minimum of the requested amount and the sum of the three
    bases: the election is used in full whenever the eligible basis allows
    it, and is cut to that basis otherwise. *)
Theorem section179_absorbed (inp : Inputs) :
  useSection179 inp = true ->
  0 <= section179Amount inp ->
  0 <= initialBasis inp "5year" ->
  0 <= initialBasis inp "7year" ->
  0 <= initialBasis inp "15year" ->
  exists res c5 c7 c15,
    scheduleData inp = Some res /\
    categorySchedules res !! "5year" = Some c5 /\
    categorySchedules res !! "7year" = Some c7 /\
    categorySchedules res !! "15year" = Some c15 /\
    Js.or0 (section179 c5) + Js.or0 (section179 c7) + Js.or0 (section179 c15)
    == Qmin (section179Amount inp)
            (initialBasis inp "5year" + initialBasis inp "7year"
             + initialBasis inp "15year").
Proof.
  intros Huse Hr0 Hb5 Hb7 Hb15.
  destruct (result_entry inp) as (res & Hres & Hcat).
  destruct (Hcat (mkCategory "5year" 5) ltac:(in_list)) as (c5 & H5 & _ & Hs5 & _).
  destruct (Hcat (mkCategory "7year" 7) ltac:(in_list)) as (c7 & H7 & _ & Hs7 & _).
  destruct (Hcat (mkCategory "15year" 15) ltac:(in_list))
    as (c15 & H15 & _ & Hs15 & _).
  exists res, c5, c7, c15. do 4 (split; [assumption|]).
  rewrite Hs5, Hs7, Hs15.
  change (entry179 inp (cat_id (mkCategory "5year" 5)))
    with (after179 (remaining0 inp) (initSchedule (initialBasis inp "5year"))).
  change (entry179 inp (cat_id (mkCategory "7year" 7)))
    with (after179
            (remainingAfter (remaining0 inp)
               (initSchedule (initialBasis inp "5year")))
            (initSchedule (initialBasis inp "7year"))).
  change (entry179 inp (cat_id (mkCategory "15year" 15)))
    with (after179
            (remainingAfter
               (remainingAfter (remaining0 inp)
                  (initSchedule (initialBasis inp "5year")))
               (initSchedule (initialBasis inp "7year")))
            (initSchedule (initialBasis inp "15year"))).
  unfold remaining0. rewrite Huse.
  set (r0 := section179Amount inp) in *.
  set (b5 := initialBasis inp "5year") in *.
  set (b7 := initialBasis inp "7year") in *.
  set (b15 := initialBasis inp "15year") in *.
  destruct (after179_init r0 r0 b5 (Qeq_refl _) Hr0 Hb5)
    as (E5 & _ & Hrem1 & Hpos1).
  destruct (after179_init _ (r0 - Qmin r0 b5) b7 Hrem1 Hpos1 Hb7)
    as (E7 & _ & Hrem2 & Hpos2).
  destruct (after179_init _ (r0 - Qmin r0 b5 - Qmin (r0 - Qmin r0 b5) b7)
              b15 Hrem2 Hpos2 Hb15) as (E15 & _).
  rewrite E5, E7, E15.
  assert (M5 := Q.min_spec r0 b5).
  assert (M7 := Q.min_spec (r0 - Qmin r0 b5) b7).
  assert (M15 := Q.min_spec (r0 - Qmin r0 b5 - Qmin (r0 - Qmin r0 b5) b7) b15).
  assert (M := Q.min_spec r0 (b5 + b7 + b15)).
  lra.
Qed.

Lemma section179_absorbed_witness :
  exists res c5 c7 c15,
    scheduleData (electing179 100000) = Some res /\
    categorySchedules res !! "5year" = Some c5 /\
    categorySchedules res !! "7year" = Some c7 /\
    categorySchedules res !! "15year" = Some c15 /\
    Js.or0 (section179 c5) + Js.or0 (section179 c7) + Js.or0 (section179 c15)
    == 100000.
Proof.
  destruct (section179_absorbed (electing179 100000))
    as (res & c5 & c7 & c15 & Hres & H5 & H7 & H15 & Hsum).
  - reflexivity.
  - unfold Qle. cbn. lia.
  - unfold Qle. vm_compute. discriminate.
  - unfold Qle. vm_compute. discriminate.
  - unfold Qle. vm_compute. discriminate.
  - exists res, c5, c7, c15. do 4 (split; [assumption|]).
    rewrite Hsum. vm_compute. reflexivity.
Defined.

Lemma after179_positive r b :
  0 < Js.or0 (section179 (after179 r (initSchedule b))) -> 0 < r.
Proof.
  unfold after179. destruct (Js.gt r 0) eqn:E; [intros _; by apply gt_true|].
  cbn [initSchedule section179]. rewrite or0_None. lra.
Qed.

Lemma remainingAfter_positive r b :
  0 < remainingAfter r (initSchedule b) ->
  0 < r /\ basis (after179 r (initSchedule b)) == 0 /\
  Js.or0 (section179 (after179 r (initSchedule b))) == b.
Proof.
  unfold remainingAfter, after179, Js.Math_min.
  destruct (Js.gt r 0) eqn:E; cbn [initSchedule basis section179].
  - apply gt_true in E. intros H. rewrite or0_Some.
    destruct (Q.min_spec r b) as [[? Hm]|[? Hm]]; repeat split; lra.
  - apply gt_false in E. intros H. lra.
Qed.

(** X13. The Section 179 order is first come, first served, for every input:
    if 7year records a positive Section 179 amount then 5year's whole
    allocated basis was deducted and nothing of it remains; if 15year records
    a positive amount then the same holds for both 5year and 7year. *)
Theorem section179_priority (inp : Inputs) :
  exists res c5 c7 c15,
    scheduleData inp = Some res /\
    categorySchedules res !! "5year" = Some c5 /\
    categorySchedules res !! "7year" = Some c7 /\
    categorySchedules res !! "15year" = Some c15 /\
    (0 < Js.or0 (section179 c7) ->
     Js.or0 (section179 c5) == initialBasis inp "5year" /\ basis c5 == 0) /\
    (0 < Js.or0 (section179 c15) ->
     Js.or0 (section179 c5) == initialBasis inp "5year" /\ basis c5 == 0 /\
     Js.or0 (section179 c7) == initialBasis inp "7year" /\ basis c7 == 0).
Proof.
  destruct (result_entry inp) as (res & Hres & Hcat).
  destruct (Hcat (mkCategory "5year" 5) ltac:(in_list))
    as (c5 & H5 & Hb5 & Hs5 & _).
  destruct (Hcat (mkCategory "7year" 7) ltac:(in_list))
    as (c7 & H7 & Hb7 & Hs7 & _).
  destruct (Hcat (mkCategory "15year" 15) ltac:(in_list))
    as (c15 & H15 & _ & Hs15 & _).
  exists res, c5, c7, c15. do 4 (split; [assumption|]).
  rewrite Hs5, Hs7, Hs15, Hb5, Hb7. cbn [cat_id].
  split.
  - intros Hpos. apply after179_positive, remainingAfter_positive in Hpos
      as (_ & Hz & Hs).
    split; [exact Hs|]. by apply entryBonus_basis_zero.
  - intros Hpos. apply after179_positive in Hpos.
    pose proof Hpos as Hpos'.
    apply remainingAfter_positive in Hpos as (Hpos7 & Hz7 & Hs7').
    apply remainingAfter_positive in Hpos7 as (_ & Hz5 & Hs5').
    split; [exact Hs5'|]. split; [by apply entryBonus_basis_zero|].
    split; [exact Hs7'|]. by apply entryBonus_basis_zero.
Qed.

(** ** Elections that have no effect *)

(** X14. Electing bonus depreciation for a placed-in-service year before 2022
    or from 2027 on changes nothing: the bonus rate is 0 there, the guard of
    the bonus loop fails, and the result is the one obtained without the
    election. *)
Theorem bonus_outside_table (inp : Inputs) :
  (purchaseYear inp < 2022 \/ 2027 <= purchaseYear inp)%Z ->
  scheduleData (withBonus inp true) = scheduleData (withBonus inp false).
Proof.
  intros Hy.
  destruct (bonusRate_bounds (purchaseYear inp) 0) as (_ & Hzero & _).
  specialize (Hzero Hy).
  assert (Hstep : forall b cs k, bonusStep (withBonus inp b) cs k = Some cs).
  { intros b cs k. unfold bonusStep. cbn [purchaseYear withBonus useBonus].
    rewrite Hzero. by rewrite andb_false_r. }
  unfold scheduleData.
  change (allocateBasis (withBonus inp true))
    with (allocateBasis (withBonus inp false)).
  change (applySection179 (withBonus inp true))
    with (applySection179 (withBonus inp false)).
  destruct (applySection179 _ _) as [[r cs1]|]; [|reflexivity].
  unfold applyBonus.
  rewrite (forEach_ext (bonusStep (withBonus inp true))
                       (bonusStep (withBonus inp false)))
    by (intros; by rewrite !Hstep).
  reflexivity.
Qed.

Lemma bonus_outside_table_witness :
  scheduleData (withBonus (mkInputs defaultAllocations 1000000 2030 true false 0
                                    "macrs") true)
  = scheduleData (withBonus (mkInputs defaultAllocations 1000000 2030 true false 0
                                      "macrs") false).
Proof.
  apply (bonus_outside_table
           (mkInputs defaultAllocations 1000000 2030 true false 0 "macrs")).
  right. cbn. lia.
Defined.

(** X15. When Section 179 is not elected the requested amount is never read:
    any two values of [section179Amount] give the same result. *)
Theorem section179Amount_ignored (inp : Inputs) (a a' : Q) :
  useSection179 inp = false ->
  scheduleData (withSection179Amount inp a)
  = scheduleData (withSection179Amount inp a').
Proof.
  intros Huse. unfold scheduleData.
  change (allocateBasis (withSection179Amount inp a))
    with (allocateBasis (withSection179Amount inp a')).
  assert (E : forall x cs,
            applySection179 (withSection179Amount inp x) cs
            = Js.forEach section179Step eligible179 (0, cs)).
  { intros x cs. unfold applySection179.
    cbn [useSection179 withSection179Amount]. by rewrite Huse. }
  rewrite !E. reflexivity.
Qed.

Lemma section179Amount_ignored_witness :
  scheduleData (withSection179Amount defaultInputs 0)
  = scheduleData (withSection179Amount defaultInputs 250000).
Proof.
  apply (section179Amount_ignored defaultInputs 0 250000). reflexivity.
Defined.

(** ** MACRS tables against the horizon *)

Lemma reported_macrs_after inp cat i rates :
  depreciationMethod inp = "macrs" ->
  macrs_lookup MACRS_RATES (cat_life cat) = Some rates ->
  (length rates <= i)%nat -> i <> 0%nat ->
  reported inp cat i = 0.
Proof.
  intros Hm Hr Hi H0. unfold reported, yearDepreciationOf, periodicDepreciation.
  destruct (Qeq_bool (cat_life cat) 0); [reflexivity|].
  apply Nat.eqb_neq in H0. rewrite H0, Hm, Hr. cbn [String.eqb Ascii.eqb Bool.eqb].
  apply Nat.ltb_ge in Hi. by rewrite Hi.
Qed.

(** X11. Under MACRS a category is fully depreciated once the year index
    passes the end of its table: for every input the rows report exactly 0
    for 5year from index 6, for 7year from index 8, for 15year from index 16
    and for residential from index 28 (the 39-year table has 40 entries and
    covers the whole horizon). *)
Theorem macrs_table_exhausted (inp : Inputs) :
  depreciationMethod inp = "macrs" ->
  exists res,
    scheduleData inp = Some res /\
    forall i, (i < 40)%nat ->
      exists row,
        schedule res !! i = Some row /\
        ((6 <= i)%nat -> depreciation row !! "5year" = Some 0) /\
        ((8 <= i)%nat -> depreciation row !! "7year" = Some 0) /\
        ((16 <= i)%nat -> depreciation row !! "15year" = Some 0) /\
        ((28 <= i)%nat -> depreciation row !! "residential" = Some 0).
Proof.
  intros Hm.
  destruct (scheduleData_result inp) as (res & Hres & _ & Hrows & _).
  exists res. split; [exact Hres|]. intros i Hi.
  destruct (Hrows i Hi) as (row & Hrow & _ & _ & Hdep & _).
  exists row. split; [exact Hrow|].
  split; [|split; [|split]]; intros Hge.
  - pose proof (Hdep (mkCategory "5year" 5) ltac:(in_list)) as H.
    cbn [cat_id] in H. rewrite H. f_equal.
    eapply reported_macrs_after; [exact Hm|reflexivity|cbn; lia|lia].
  - pose proof (Hdep (mkCategory "7year" 7) ltac:(in_list)) as H.
    cbn [cat_id] in H. rewrite H. f_equal.
    eapply reported_macrs_after; [exact Hm|reflexivity|cbn; lia|lia].
  - pose proof (Hdep (mkCategory "15year" 15) ltac:(in_list)) as H.
    cbn [cat_id] in H. rewrite H. f_equal.
    eapply reported_macrs_after; [exact Hm|reflexivity|cbn; lia|lia].
  - pose proof (Hdep (mkCategory "residential" 27.5) ltac:(in_list)) as H.
    cbn [cat_id] in H. rewrite H. f_equal.
    eapply reported_macrs_after; [exact Hm|reflexivity|cbn; lia|lia].
Qed.

Lemma macrs_table_exhausted_witness :
  exists res row,
    scheduleData defaultInputs = Some res /\
    schedule res !! 6%nat = Some row /\
    depreciation row !! "5year" = Some 0.
Proof.
  destruct (macrs_table_exhausted defaultInputs eq_refl) as (res & Hres & Hrows).
  destruct (Hrows 6%nat ltac:(lia)) as (row & Hrow & H5 & _).
  exists res, row. split; [exact Hres|]. split; [exact Hrow|]. apply H5. lia.
Defined.

(** ** The horizon total against the depreciable basis *)

Lemma cumulative_pushYears inp cat :
  Qeq_bool (cat_life cat) 0 = false ->
  cumulative (pushYears inp cat years (entryBonus inp (cat_id cat)))
  == initialBasis inp (cat_id cat)
     - basis (entryBonus inp (cat_id cat))
       * (1 - recoveryFraction (depreciationMethod inp) (cat_life cat)).
Proof.
  intros E. destruct (entryBonus_fresh inp (cat_id cat)) as (_ & Hc).
  unfold pushYears. rewrite E. cbn [cumulative].
  rewrite fold_left_Qplus_sumQ, Hc, sumQ_all_years,
    <- (entryBonus_conserved inp (cat_id cat)).
  ring.
Qed.

Lemma horizon_total_by_fraction inp res (fr : Q) :
  scheduleData inp = Some res ->
  sumQ (map (fun cat => allocations inp (cat_id cat)) ASSET_CATEGORIES) == 100 ->
  recoveryFraction (depreciationMethod inp) 5 == 1 /\
  recoveryFraction (depreciationMethod inp) 7 == 1 /\
  recoveryFraction (depreciationMethod inp) 15 == 1 /\
  recoveryFraction (depreciationMethod inp) 27.5 == fr /\
  recoveryFraction (depreciationMethod inp) 39 == 1 ->
  cumulativeAt res 39
  == totalDepreciable (summaryStats inp res)
     - (1 - fr) * initialBasis inp "residential".
Proof.
  intros Hres H100 (F5 & F7 & F15 & Fr & Fc).
  destruct (last_running_total inp res Hres) as (_ & Hsum & Hlast).
  rewrite Hlast, Hsum. unfold sumQ in *.
  cbn [map fold_right ASSET_CATEGORIES cat_id] in *.
  rewrite (cumulative_pushYears inp (mkCategory "5year" 5)) by reflexivity.
  rewrite (cumulative_pushYears inp (mkCategory "7year" 7)) by reflexivity.
  rewrite (cumulative_pushYears inp (mkCategory "15year" 15)) by reflexivity.
  rewrite (cumulative_pushYears inp (mkCategory "residential" 27.5)) by reflexivity.
  rewrite (cumulative_pushYears inp (mkCategory "commercial" 39)) by reflexivity.
  cbn [cat_id cat_life]. rewrite F5, F7, F15, Fr, Fc.
  rewrite (entryBonus_not_eligible inp "residential") by reflexivity.
  change (cumulative (pushYears inp (mkCategory "land" 0) years
                        (entryBonus inp "land")))
    with (cumulative (entryBonus inp "land")).
  rewrite (proj2 (entryBonus_fresh inp "land")).
  cbn [summaryStats totalDepreciable initSchedule basis].
  unfold initialBasis.
  assert (Hland : allocations inp "land"
                  == 100 - allocations inp "5year" - allocations inp "7year"
                     - allocations inp "15year" - allocations inp "residential"
                     - allocations inp "commercial") by lra.
  rewrite Hland. field.
Qed.

(** X16. In exact arithmetic: when the six allocations add up to 100, the
    running total of the
    last table row (all depreciation of the 40 years, Section 179 and bonus
    included) is the summary's total depreciable basis, except for the
    residential category: under MACRS it falls short by 0.00313 of the
    residential basis, under the straight-line method it exceeds it by 1/55 of
    the residential basis. *)
Theorem horizon_total (inp : Inputs) :
  sumQ (map (fun cat => allocations inp (cat_id cat)) ASSET_CATEGORIES) == 100 ->
  exists res,
    scheduleData inp = Some res /\
    (depreciationMethod inp = "macrs" ->
     cumulativeAt res 39
     == totalDepreciable (summaryStats inp res)
        - 0.00313 * initialBasis inp "residential") /\
    (depreciationMethod inp <> "macrs" ->
     cumulativeAt res 39
     == totalDepreciable (summaryStats inp res)
        + (1 # 55) * initialBasis inp "residential").
Proof.
  intros H100.
  destruct (scheduleData_result inp) as (res & Hres & _).
  exists res. split; [exact Hres|]. split; intros Hm.
  - rewrite (horizon_total_by_fraction inp res 0.99687 Hres H100)
      by (rewrite Hm; apply recoveryFraction_macrs).
    ring.
  - rewrite (horizon_total_by_fraction inp res (56 # 55) Hres H100)
      by (by apply recoveryFraction_straight).
    ring.
Qed.

Lemma horizon_total_witness :
  exists res,
    scheduleData defaultInputs = Some res /\
    cumulativeAt res 39 == 850000.
Proof.
  destruct (horizon_total defaultInputs) as (res & Hres & Hmacrs & _).
  - vm_compute. reflexivity.
  - exists res. split; [exact Hres|].
    rewrite (Hmacrs eq_refl). vm_compute. reflexivity.
Defined.

(** ** Composition of allocation updates *)

Lemma setProp_setProp_eq k v v' (o : list (string * Q)) :
  setProp k v (setProp k v' o) = setProp k v o.
Proof.
  induction o as [|[k0 v0] o IH]; cbn [setProp].
  - by rewrite String.eqb_refl.
  - destruct (String.eqb k0 k) eqn:E; cbn [setProp]; rewrite E; [done|].
    by rewrite IH.
Qed.

Lemma setProp_comm k1 k2 v1 v2 (o : list (string * Q)) :
  k1 <> k2 -> k1 ∈ map fst o -> k2 ∈ map fst o ->
  setProp k1 v1 (setProp k2 v2 o) = setProp k2 v2 (setProp k1 v1 o).
Proof.
  intros Hne. induction o as [|[k0 v0] o IH]; cbn [map fst]; intros H1 H2.
  - by apply elem_of_nil in H1.
  - cbn [setProp].
    destruct (String.eqb k0 k1) eqn:E1, (String.eqb k0 k2) eqn:E2;
      cbn [setProp]; rewrite ?E1, ?E2; try reflexivity.
    + apply String.eqb_eq in E1, E2. congruence.
    + f_equal. apply IH.
      * apply elem_of_cons in H1 as [->|H1]; [|done].
        by rewrite String.eqb_refl in E1.
      * apply elem_of_cons in H2 as [->|H2]; [|done].
        by rewrite String.eqb_refl in E2.
Qed.

(** X17. Calls of [updateAllocation] compose as writes to independent slots:
    a second call on the same category overwrites the first (only the last
    typed value counts), and calls on two different categories of the state
    give the same state in either order. *)
Theorem updateAllocation_composes (prev : list (string * Q))
    (id1 id2 : string) (p1 p2 : option Q) :
  updateAllocation id1 p2 (updateAllocation id1 p1 prev)
  = updateAllocation id1 p2 prev /\
  (id1 <> id2 -> id1 ∈ map fst prev -> id2 ∈ map fst prev ->
   updateAllocation id1 p1 (updateAllocation id2 p2 prev)
   = updateAllocation id2 p2 (updateAllocation id1 p1 prev)).
Proof.
  unfold updateAllocation. split; [apply setProp_setProp_eq|].
  intros. by apply setProp_comm.
Qed.

(** * Where the claims stop holding *)

(** C1, as stated, fails in two ways.  With Section 179 elected for a
    negative amount (-500 on the initial state) the guard of line 86 fails:
    nothing is recorded for 5year and its basis stays 80,000, whereas
    [min(remaining, basis)] is -500, and the total deducted, 0, is above
    [min(requested, sum of the bases)].  With a negative basis (total cost
    -100, amount 0) nothing is recorded either, whereas [min(remaining,
    basis)] is -8.  And in double arithmetic the recorded amounts can add up
    to more than the request: 2022244.76 against 25.5, 56.5 and 79.8 percent
    of 1747609.68 records 2022244.7600000002. *)
Lemma section179_claim_fails :
  (exists r cs1 c5,
     useSection179 (electing179 (-500)) = true /\
     applySection179 (electing179 (-500)) (allocateBasis (electing179 (-500)))
     = Some (r, cs1) /\
     cs1 !! "5year" = Some c5 /\
     section179 c5 = None /\
     basis c5 == 80000 /\
     Qmin (section179Amount (electing179 (-500)))
          (initialBasis (electing179 (-500)) "5year") == -500 /\
     ~ Js.or0 (section179 c5)
       == Qmin (section179Amount (electing179 (-500)))
               (initialBasis (electing179 (-500)) "5year") /\
     ~ 0 <= Qmin (section179Amount (electing179 (-500)))
                 (initialBasis (electing179 (-500)) "5year"
                  + initialBasis (electing179 (-500)) "7year"
                  + initialBasis (electing179 (-500)) "15year")) /\
  (exists r cs1 c5,
     useSection179 negativeCostElecting = true /\
     0 <= section179Amount negativeCostElecting /\
     applySection179 negativeCostElecting (allocateBasis negativeCostElecting)
     = Some (r, cs1) /\
     cs1 !! "5year" = Some c5 /\
     section179 c5 = None /\
     Qmin (section179Amount negativeCostElecting)
          (initialBasis negativeCostElecting "5year") == -8 /\
     ~ Js.or0 (section179 c5)
       == Qmin (section179Amount negativeCostElecting)
               (initialBasis negativeCostElecting "5year")) /\
  PrimFloat.ltb
    Double.sampleRequest
    (Double.sum
       (map (fun entry => Double.or0 (snd entry))
            (Double.section179Loop Double.sampleRequest
                                   Double.sampleEligibleBases)))
  = true /\
  PrimFloat.ltb
    (Double.Math_min Double.sampleRequest
                     (Double.sum Double.sampleEligibleBases))
    (Double.sum
       (map (fun entry => Double.or0 (snd entry))
            (Double.section179Loop Double.sampleRequest
                                   Double.sampleEligibleBases)))
  = true.
Proof.
  split; [|split; [|split; vm_compute; reflexivity]].
  - assert (Hneg : -500 <= 0) by (unfold Qle; cbn; lia).
    exists (-500), (allocateBasis (electing179 (-500))),
      (initSchedule (initialBasis (electing179 (-500)) "5year")).
    split; [reflexivity|]. split.
    { unfold applySection179, eligible179.
      cbn [useSection179 section179Amount electing179].
      do 3 (rewrite forEach_cons, section179Step_skip by exact Hneg).
      reflexivity. }
    split; [apply allocateBasis_5year|]. split; [reflexivity|].
    split; [vm_compute; reflexivity|].
    split; [vm_compute; reflexivity|].
    split; [vm_compute; intros H; discriminate H|].
    intros H. vm_compute in H. by apply H.
  - exists 0, (allocateBasis negativeCostElecting),
      (initSchedule (initialBasis negativeCostElecting "5year")).
    split; [reflexivity|]. split; [apply Qle_refl|]. split.
    { unfold applySection179, eligible179.
      cbn [useSection179 section179Amount negativeCostElecting].
      do 3 (rewrite forEach_cons, section179Step_skip by apply Qle_refl).
      reflexivity. }
    split; [apply allocateBasis_5year|]. split; [reflexivity|].
    split; [vm_compute; reflexivity|].
    vm_compute. intros H. discriminate H.
Qed.

(** C7, as stated, fails in the closure's own arithmetic: with allocations
    20/10/7/8/0/55 percent, which add up to 100, of a cost of 999999.99, the
    six products of line 75 add up to 999999.9900000001, above the total
    cost times the sum of the percentages over 100 however that is
    bracketed. *)
Lemma allocation_not_conserved_in_doubles :
  PrimFloat.eqb (Double.sum Double.sampleAllocations) 100%float = true /\
  PrimFloat.ltb
    (PrimFloat.div
       (PrimFloat.mul Double.sampleCost (Double.sum Double.sampleAllocations))
       100%float)
    (Double.sum
       (map (fun a => Double.initialBasis a Double.sampleCost)
            Double.sampleAllocations))
  = true /\
  PrimFloat.ltb
    (PrimFloat.mul Double.sampleCost
       (PrimFloat.div (Double.sum Double.sampleAllocations) 100%float))
    (Double.sum
       (map (fun a => Double.initialBasis a Double.sampleCost)
            Double.sampleAllocations))
  = true.
Proof. repeat split; vm_compute; reflexivity. Qed.
